(** * Initialization coordination and readiness gating of the Kokoro TTS API

    A shallow embedding of [src/entry/main.py]: the module globals
    [MODELS_LOADED], [initialized] and [initialization_error], the
    background worker [init_models_thread] spawned by [startup_event], the
    probes [health_check] and [readiness_check], the route [root] and the
    middleware [check_initialization], followed by the properties of the
    specification that concern them.

    A Python [str] is modelled as a [string]; each [ascii] stands for one
    character (a code point below 256), so [String.length] is Python's
    [len].  A [dict] is a [gmap], a collection of voice identifiers a
    [list string]. *)

From Stdlib Require Import String Ascii Bool Arith Lia.
From stdpp Require Import base strings list gmap.

(** ** Python primitives used by the module *)

Module Py.

(** [c.lower()] for one character below 256: the upper-case letters are
    [A]-[Z] and the Latin-1 range 192-222 without the multiplication
    sign 215. *)
Definition lower_char (c : ascii) : ascii :=
  let n := nat_of_ascii c in
  if (((65 <=? n) && (n <=? 90)) ||
      ((192 <=? n) && (n <=? 222) && negb (n =? 215)))%nat
  then ascii_of_nat (n + 32) else c.

(** [s.lower()] *)
Fixpoint lower (s : string) : string :=
  match s with
  | EmptyString => EmptyString
  | String c t => String (lower_char c) (lower t)
  end.

(** [needle in hay] for two strings *)
Fixpoint contains (needle hay : string) : bool :=
  String.prefix needle hay ||
  match hay with
  | EmptyString => false
  | String _ t => contains needle t
  end.

(** [s[:n]] *)
Fixpoint slice_to (n : nat) (s : string) : string :=
  match n, s with
  | S m, String c t => String c (slice_to m t)
  | _, _ => EmptyString
  end.

(** [str(b)] for a [bool], as an f-string renders it *)
Definition str_bool (b : bool) : string :=
  if b then "True" else "False".

(** Truth value of an [Optional[str]]: [None] and [''] are false. *)
Definition truthy (o : option string) : bool :=
  match o with
  | None => false
  | Some s => negb (String.eqb s "")
  end.

(** [os.environ.get(key, '')] *)
Definition environ_get (environ : gmap string string) (key : string) : string :=
  default "" (environ !! key).

(** [s.endswith('/')] *)
Fixpoint ends_with_sep (s : string) : bool :=
  match s with
  | EmptyString => false
  | String c EmptyString => Ascii.eqb c "/"
  | String _ t => ends_with_sep t
  end.

(** [os.path.join(a, b)] on POSIX *)
Definition path_join (a b : string) : string :=
  if String.prefix "/" b then b
  else if String.eqb a "" || ends_with_sep a then a +:+ b
  else a +:+ "/" +:+ b.

(** [os.path.exists(p)] over the set of paths present on disk *)
Definition path_exists (fs : gset string) (p : string) : bool :=
  bool_decide (p ∈ fs).

End Py.

(** ** Shared state *)

(** The three module globals of [main.py]. *)
Record globals := Globals {
  MODELS_LOADED : bool;
  initialized : bool;
  initialization_error : option string
}.

(** Their values when the module is imported. *)
Definition initial_globals : globals :=
  {| MODELS_LOADED := false; initialized := false; initialization_error := None |}.

(** The state of [entry.core.models] as [get_models], [get_pipelines] and
    [get_voices] return it.  The element types of the two dictionaries are
    not fixed by [main.py]. *)
Record registry (Model Pipeline : Type) := Registry {
  models : gmap string Model;
  pipelines : gmap string Pipeline;
  voices : list string
}.
Arguments Registry {Model Pipeline} _ _ _.
Arguments models {Model Pipeline} _.
Arguments pipelines {Model Pipeline} _.
Arguments voices {Model Pipeline} _.

(** ** HTTP values *)

Inductive json :=
| JStr (s : string)
| JList (l : list string).

(** A JSON object in insertion order. *)
Definition body := list (string * json).

Record response := Response { status_code : nat; content : body }.

(** What the middleware does with a request: hand it to [call_next], or
    raise [HTTPException(status_code, detail)]. *)
Inductive admission :=
| Allow
| Reject (status : nat) (detail : string).

(** The lifecycle stage of the specification. *)
Inductive Phase := Uninitialized | Loading | Ready | Failed.

#[global] Instance Phase_eq_dec : EqDecision Phase.
Proof. solve_decision. Defined.

(** Program points of one [init_models_thread] run. *)
Inductive wpc :=
| WAcquire                (* before [with model_init_lock] *)
| WDetect                 (* lock held, before the environment test *)
| WLoad (force_online : bool)  (* lock held, in [initialize_models] *)
| WValidate               (* lock held, before the accessor calls and the check *)
| WSet1                   (* lock held, before [MODELS_LOADED = True] *)
| WSet2                   (* lock held, before [initialized = True] *)
| WSet3                   (* lock held, before [initialization_error = None] *)
| WRelease                (* lock held, leaving the [with] block *)
| WExc1 (e : string)      (* handler, before [initialization_error = str(e)] *)
| WExc2                   (* handler, before [MODELS_LOADED = False] *)
| WExc3                   (* handler, before [initialized = False] *)
| WDone.

#[global] Instance wpc_eq_dec : EqDecision wpc.
Proof. solve_decision. Defined.

(** Does a thread at this point own [model_init_lock]? *)
Definition locked_pc (pc : wpc) : bool :=
  match pc with
  | WDetect | WLoad _ | WValidate | WSet1 | WSet2 | WSet3 | WRelease => true
  | WAcquire | WExc1 _ | WExc2 | WExc3 | WDone => false
  end.

(** The process: the globals, the model registry, the owner of
    [model_init_lock] (the index of the worker thread inside its [with]
    block, if any) and the program point of every worker thread spawned so
    far. *)
Record sys (Model Pipeline : Type) := Sys {
  glob : globals;
  reg : registry Model Pipeline;
  model_init_lock : option nat;
  workers : list wpc
}.
Arguments Sys {Model Pipeline} _ _ _ _.
Arguments glob {Model Pipeline} _.
Arguments reg {Model Pipeline} _.
Arguments model_init_lock {Model Pipeline} _.
Arguments workers {Model Pipeline} _.

(** What a scheduler can do after start-up: let worker [i] take its next
    step, or deliver a request for [path] to the middleware. *)
Inductive event :=
| EvWorker (i : nat)
| EvRequest (path : string).

(** How a call of [initialize_models] ends: it returns; it raises an
    exception of class [Exception], whose [str] is [text]; or it raises
    one outside [Exception] ([SystemExit], [KeyboardInterrupt],
    [GeneratorExit]), which [except Exception] does not catch. *)
Inductive load_end :=
| Returns
| RaisesException (text : string)
| RaisesOther.

(** How a request ends: [HTTPException] raised by the middleware, a
    response of a route of [main.py], or a route of an included router. *)
Inductive served :=
| Raised (status : nat) (detail : string)
| Responded (r : response)
| Routed.

(** ** The probes, the root route and the middleware *)

Section Endpoints.
Context {Model Pipeline : Type}.
Implicit Types (g : globals) (r : registry Model Pipeline).

(** [bool(d)] and [bool(l)] of a dictionary and of a list *)
Definition dict_bool {V} (d : gmap string V) : bool := negb (size d =? 0)%nat.
Definition list_bool {A} (l : list A) : bool := negb (length l =? 0)%nat.

(** [health_check]: the returned dictionary; the framework answers 200. *)
Definition health_check g r : response :=
  if Py.truthy (initialization_error g) then
    Response 200 [("status", JStr "error");
                  ("error", JStr (default "" (initialization_error g)))]
  else if negb (initialized g) then
    Response 200 [("status", JStr "initializing")]
  else
    Response 200 [("status", JStr "healthy"); ("voices", JList (voices r))].

(** [readiness_check]: the status is 200 unless the handler sets it. *)
Definition readiness_check g : response :=
  if Py.truthy (initialization_error g) then
    Response 503 [("status", JStr "error");
                  ("error", JStr (default "" (initialization_error g)))]
  else if negb (initialized g) then
    Response 503 [("status", JStr "loading");
                  ("message", JStr "Models are still loading")]
  else
    Response 200 [("status", JStr "ready");
                  ("message", JStr "Models loaded and ready")].

(** [root] *)
Definition root : response :=
  Response 200
    [("message",
      JStr "Kokoro TTS API is running. Visit /docs for API documentation.")].

Definition exempt_paths : list string :=
  ["/health"; "/ready"; "/docs"; "/openapi.json"; "/redoc"].

Definition compatibility_guidance : string :=
  "PyTorch 2.6 compatibility issue with model loading. The model was created with an older PyTorch version. Please restart the application to retry with fallback loading options.".

(** The text the middleware derives from the stored error. *)
Definition format_error (e : string) : string :=
  let error_msg := e in
  let error_msg :=
    if Py.contains "weights_only" error_msg then compatibility_guidance
    else error_msg in
  if (200 <? String.length error_msg)%nat
  then Py.slice_to 197 error_msg +:+ "..."
  else error_msg.

(** [check_initialization], as a function of the state it reads. *)
Definition check_initialization (path : string) g r : admission :=
  if bool_decide (path ∈ exempt_paths) then Allow
  else if negb (initialized g) then
    if Py.truthy (initialization_error g) then
      Reject 503 ("Service unavailable: " +:+
                  format_error (default "" (initialization_error g)))
    else Reject 503 "Service is still initializing"
  else if (size (models r) =? 0)%nat || (length (voices r) =? 0)%nat then
    Reject 503 "Model initialization incomplete - service not ready"
  else Allow.

(** The middleware takes [model_init_lock] for every path outside the
    exempt list; a worker inside its [with] block makes it wait. *)
Definition gate_blocked (path : string) (s : sys Model Pipeline) : bool :=
  negb (bool_decide (path ∈ exempt_paths)) &&
  match model_init_lock s with Some _ => true | None => false end.

(** The routes [main.py] itself defines. *)
Definition route (path : string) g r : served :=
  if String.eqb path "/" then Responded root
  else if String.eqb path "/health" then Responded (health_check g r)
  else if String.eqb path "/ready" then Responded (readiness_check g)
  else Routed.

(** A GET request, run by the event loop, through the middleware;
    [None] while it waits for the lock.  What a waiting request does to
    the requests behind it is [loop_request] below. *)
Definition handle_request (path : string) (s : sys Model Pipeline)
  : option served :=
  if gate_blocked path s then None
  else
    match check_initialization path (glob s) (reg s) with
    | Reject st d => Some (Raised st d)
    | Allow => Some (route path (glob s) (reg s))
    end.

End Endpoints.

(** ** The background worker and the start-up hook *)

Section Worker.
Context {Model Pipeline : Type}.

(** The surroundings of the process: [os.environ], [os.getcwd()], the
    paths that exist on disk, and the external loader.
    [initialize_models force_online r] gives the registry the call
    leaves behind and the way the call ends. *)
Variable environ : gmap string string.
Variable cwd : string.
Variable fs : gset string.
Variable initialize_models :
  bool → registry Model Pipeline → registry Model Pipeline * load_end.

Implicit Types (g : globals) (r : registry Model Pipeline)
               (s : sys Model Pipeline).

(** The value of [force_online] when [initialize_models] is called. *)
Definition detect_force_online : bool :=
  if String.eqb (Py.lower (Py.environ_get environ "CONTAINER_ENV")) "true"
     || negb (String.eqb (Py.lower (Py.environ_get environ "K_SERVICE")) "")
  then negb (Py.path_exists fs
               (Py.path_join (Py.path_join cwd "models") "Kokoro-82M"))
  else false.

(** The f-string of the [RuntimeError]. *)
Definition missing_components_message r : string :=
  "Critical components missing after initialization: models=" +:+
  Py.str_bool (dict_bool (models r)) +:+ ", pipelines=" +:+
  Py.str_bool (dict_bool (pipelines r)) +:+ ", voices=" +:+
  Py.str_bool (list_bool (voices r)).

(** The validation after the load: [Some msg] when it raises. *)
Definition validate r : option string :=
  if negb (dict_bool (models r)) || negb (dict_bool (pipelines r))
     || negb (list_bool (voices r))
  then Some (missing_components_message r) else None.

Definition set_MODELS_LOADED (b : bool) g : globals :=
  Globals b (initialized g) (initialization_error g).
Definition set_initialized (b : bool) g : globals :=
  Globals (MODELS_LOADED g) b (initialization_error g).
Definition set_initialization_error (e : option string) g : globals :=
  Globals (MODELS_LOADED g) (initialized g) e.

(** The three assignments that end the [with] block. *)
Definition publish_success g : globals :=
  set_initialization_error None (set_initialized true (set_MODELS_LOADED true g)).

(** The three assignments of the [except] handler. *)
Definition publish_failure (e : string) g : globals :=
  set_initialized false (set_MODELS_LOADED false (set_initialization_error (Some e) g)).

(** [init_models_thread] run from start to end with nothing interleaved.
    An exception outside [Exception] passes the handler: the thread ends
    and the globals stay as they were. *)
Definition init_models_thread g r : globals * registry Model Pipeline :=
  let force_online := detect_force_online in
  let '(r', ended) := initialize_models force_online r in
  match ended with
  | RaisesException e => (publish_failure e g, r')
  | RaisesOther => (g, r')
  | Returns =>
      match validate r' with
      | Some e => (publish_failure e g, r')
      | None => (publish_success g, r')
      end
  end.

(** One step of the thread with index [i] at program point [pc], on the
    globals, the registry and the lock as it finds them; [None] when it
    waits for the lock or has ended.  An exception raised inside the
    [with] block releases the lock on its way out; one of class
    [Exception] enters the handler, any other ends the thread with
    nothing written. *)
Definition thread_step (i : nat) (pc : wpc) g r (lock : option nat)
  : option (wpc * globals * registry Model Pipeline * option nat) :=
  match pc with
  | WAcquire =>
      match lock with
      | None => Some (WDetect, g, r, Some i)
      | Some _ => None
      end
  | WDetect => Some (WLoad detect_force_online, g, r, lock)
  | WLoad force_online =>
      let '(r', ended) := initialize_models force_online r in
      match ended with
      | RaisesException e => Some (WExc1 e, g, r', None)
      | RaisesOther => Some (WDone, g, r', None)
      | Returns => Some (WValidate, g, r', lock)
      end
  | WValidate =>
      match validate r with
      | Some e => Some (WExc1 e, g, r, None)
      | None => Some (WSet1, g, r, lock)
      end
  | WSet1 => Some (WSet2, set_MODELS_LOADED true g, r, lock)
  | WSet2 => Some (WSet3, set_initialized true g, r, lock)
  | WSet3 => Some (WRelease, set_initialization_error None g, r, lock)
  | WRelease => Some (WDone, g, r, None)
  | WExc1 e => Some (WExc2, set_initialization_error (Some e) g, r, lock)
  | WExc2 => Some (WExc3, set_MODELS_LOADED false g, r, lock)
  | WExc3 => Some (WDone, set_initialized false g, r, lock)
  | WDone => None
  end.

(** One step of worker [i] in the process; [None] also when there is no
    such thread. *)
Definition worker_step (i : nat) s : option (sys Model Pipeline) :=
  match workers s !! i with
  | None => None
  | Some pc =>
      match thread_step i pc (glob s) (reg s) (model_init_lock s) with
      | None => None
      | Some (pc', g', r', lock') =>
          Some (Sys g' r' lock' (<[i := pc']> (workers s)))
      end
  end.

(** [startup_event]: build the closure, create the thread, start it.
    Nothing is tested and no global is written. *)
Definition startup_event s : sys Model Pipeline :=
  Sys (glob s) (reg s) (model_init_lock s) (workers s ++ [WAcquire]).

(** The process after the module is imported, before any start-up hook. *)
Definition initial_sys r : sys Model Pipeline :=
  Sys initial_globals r None [].

(** An event leaves the state alone when the thread cannot move; a
    request only reads. *)
Definition do_event (e : event) s : sys Model Pipeline :=
  match e with
  | EvWorker i => default s (worker_step i s)
  | EvRequest _ => s
  end.

(** The states an execution passes through, the first one included. *)
Fixpoint trace (es : list event) s : list (sys Model Pipeline) :=
  match es with
  | [] => [s]
  | e :: es' => s :: trace es' (do_event e s)
  end.

Definition run (es : list event) s : sys Model Pipeline :=
  foldl (fun s e => do_event e s) s es.

(** Worker [i] scheduled alone for [n] steps. *)
Definition run_worker (n i : nat) s : sys Model Pipeline :=
  run (replicate n (EvWorker i)) s.

(** [n] steps of one thread with nobody else scheduled. *)
Fixpoint thread_run (n i : nat) (pc : wpc) g r (lock : option nat)
  : wpc * globals * registry Model Pipeline * option nat :=
  match n with
  | 0 => (pc, g, r, lock)
  | S n' =>
      match thread_step i pc g r lock with
      | None => (pc, g, r, lock)
      | Some (pc', g', r', lock') => thread_run n' i pc' g' r' lock'
      end
  end.


(** Every state of the process: any number of start-up calls, any
    interleaving of worker steps. *)
Inductive reachable (r0 : registry Model Pipeline) : sys Model Pipeline → Prop :=
| reach_init : reachable r0 (initial_sys r0)
| reach_startup s : reachable r0 s → reachable r0 (startup_event s)
| reach_worker s i s' :
    reachable r0 s → worker_step i s = Some s' → reachable r0 s'.

(** The phase a state stands for: [Failed] once an error is stored,
    [Ready] once [initialized] is set, [Loading] from the first spawned
    worker on. *)
Definition phase s : Phase :=
  match initialization_error (glob s) with
  | Some _ => Failed
  | None =>
      if initialized (glob s) then Ready
      else match workers s with [] => Uninitialized | _ :: _ => Loading end
  end.

(** One step of the monotone order [Uninitialized, Loading, terminal]. *)
Definition phase_next (p q : Phase) : bool :=
  match p, q with
  | Uninitialized, Loading | Loading, Ready | Loading, Failed => true
  | _, _ => bool_decide (p = q)
  end.

(** A sequence of observations with the repetitions dropped. *)
Fixpoint distinct_run (ps : list Phase) : list Phase :=
  match ps with
  | [] => []
  | p :: rest =>
      match rest with
      | [] => [p]
      | q :: _ => if bool_decide (p = q) then distinct_run rest
                  else p :: distinct_run rest
      end
  end.

(** The number of steps of an execution that move the phase into a
    terminal one. *)
Fixpoint terminal_writes (ps : list Phase) : nat :=
  match ps with
  | p :: ((q :: _) as rest) =>
      (if bool_decide (p ≠ q) && (bool_decide (q = Ready) || bool_decide (q = Failed))
       then 1 else 0) + terminal_writes rest
  | _ => 0
  end.

End Worker.

(** ** Vocabulary of the specification *)

(** Following the specification's words: the value equals ["true"] up to
    the case of its four letters. *)
Definition equals_true_ignoring_case (v : string) : Prop :=
  ∃ c1 c2 c3 c4 : ascii,
    v = String c1 (String c2 (String c3 (String c4 EmptyString))) ∧
    (c1 = "t" ∨ c1 = "T")%char ∧ (c2 = "r" ∨ c2 = "R")%char ∧
    (c3 = "u" ∨ c3 = "U")%char ∧ (c4 = "e" ∨ c4 = "E")%char.

(** Following the specification's words: [needle] occurs in [hay] as a
    substring. *)
Definition has_substring (needle hay : string) : Prop :=
  ∃ before after, hay = before +:+ needle +:+ after.

(** Following the specification's words: [s] ends in [suffix]. *)
Definition ends_in (suffix s : string) : Prop :=
  ∃ before, s = before +:+ suffix.

(** ** Concrete surroundings used to run the model *)

Module Demo.

Definition full_registry : registry unit unit :=
  Registry {["kokoro" := tt]} {["a" := tt]} ["af_heart"].
Definition no_voices_registry : registry unit unit :=
  Registry {["kokoro" := tt]} {["a" := tt]} [].
Definition empty_registry : registry unit unit := Registry ∅ ∅ [].

(** Loaders: one that fills the registry, one that leaves the voices
    empty, one that raises an [Exception] whose [str] is [e], one that
    raises [SystemExit]. *)
Definition loader_ok (_ : bool) (_ : registry unit unit)
  : registry unit unit * load_end := (full_registry, Returns).
Definition loader_no_voices (_ : bool) (_ : registry unit unit)
  : registry unit unit * load_end := (no_voices_registry, Returns).
Definition loader_raises (e : string) (_ : bool) (r : registry unit unit)
  : registry unit unit * load_end := (r, RaisesException e).
Definition loader_exits (_ : bool) (r : registry unit unit)
  : registry unit unit * load_end := (r, RaisesOther).

(** A loader whose first call raises after a partial download and whose
    second call, finding the registry filled, succeeds. *)
Definition loader_flaky (_ : bool) (r : registry unit unit)
  : registry unit unit * load_end :=
  match voices r with
  | [] => (full_registry, RaisesException "connection reset")
  | _ :: _ => (r, Returns)
  end.

Definition container_environ : gmap string string :=
  {["CONTAINER_ENV" := "True"]}.

(** A message of 201 characters without the marker, and a long one
    with it. *)
Definition long_message : string :=
  string_of_list_ascii (replicate 201 "a"%char).
Definition long_marked_message : string :=
  "weights_only " +:+ long_message.

(** The process once the single worker has been spawned. *)
Definition started : sys unit unit := startup_event (initial_sys empty_registry).

(** The single worker inside [initialize_models], the lock held. *)
Definition before_load : sys unit unit :=
  Sys initial_globals empty_registry (Some 0) [WDetect].
Definition in_load : sys unit unit :=
  Sys initial_globals empty_registry (Some 0) [WLoad false].

(** The hook called twice: two workers, the first inside
    [initialize_models], the second before its [with] block. *)
Definition two_before_load : sys unit unit :=
  Sys initial_globals empty_registry (Some 0) [WDetect; WAcquire].
Definition two_in_load : sys unit unit :=
  Sys initial_globals empty_registry (Some 0) [WLoad false; WAcquire].

(** The states of an execution in which the hook is called twice and
    the two workers then run one after the other, with the loader that
    fails the first time. *)
Definition two_startup_states : list (sys unit unit) :=
  initial_sys empty_registry :: started ::
  trace ∅ "/app" ∅ loader_flaky
    (replicate 8 (EvWorker 0) ++ replicate 8 (EvWorker 1))
    (startup_event started).

End Demo.

(** ** Invariants *)

Section Invariants.
Context {Model Pipeline : Type}.
Implicit Types (s : sys Model Pipeline).

(** A process with one worker: what the globals and the lock hold at
    each program point of that worker. *)
Definition single_inv s : Prop :=
  ∃ pc, workers s = [pc] ∧
  match pc with
  | WAcquire | WExc1 _ =>
      glob s = initial_globals ∧ model_init_lock s = None
  | WDetect | WLoad _ | WValidate | WSet1 =>
      glob s = initial_globals ∧ model_init_lock s = Some 0
  | WSet2 =>
      glob s = Globals true false None ∧ model_init_lock s = Some 0
  | WSet3 | WRelease =>
      glob s = Globals true true None ∧ model_init_lock s = Some 0
  | WExc2 | WExc3 =>
      (∃ e, glob s = Globals false false (Some e)) ∧ model_init_lock s = None
  | WDone =>
      (glob s = Globals true true None ∨
       (∃ e, glob s = Globals false false (Some e)) ∨
       glob s = initial_globals) ∧
      model_init_lock s = None
  end.

(** The lock discipline, for any number of workers: a thread inside its
    [with] block is the owner, and the owner is inside its [with]
    block. *)
Definition lock_inv s : Prop :=
  (∀ i pc, workers s !! i = Some pc → locked_pc pc = true →
           model_init_lock s = Some i) ∧
  (∀ i, model_init_lock s = Some i →
        ∃ pc, workers s !! i = Some pc ∧ locked_pc pc = true).

(** Every observation is followed by itself or by its successor. *)
Fixpoint chain (ps : list Phase) : bool :=
  match ps with
  | p :: ((q :: _) as rest) => phase_next p q && chain rest
  | _ => true
  end.

Definition loading_body : body :=
  [("status", JStr "loading"); ("message", JStr "Models are still loading")].
Definition ready_body : body :=
  [("status", JStr "ready"); ("message", JStr "Models loaded and ready")].
Definition error_body (e : string) : body :=
  [("status", JStr "error"); ("error", JStr e)].

(** What [/ready] answers in a state, told by its phase. *)
Definition ready_contract s : Prop :=
  (status_code (readiness_check (glob s)) = 200 ↔ phase s = Ready) ∧
  readiness_check (glob s) =
    match phase s with
    | Ready => Response 200 ready_body
    | Failed =>
        match initialization_error (glob s) with
        | Some e => if String.eqb e "" then Response 503 loading_body
                    else Response 503 (error_body e)
        | None => Response 503 loading_body
        end
    | Uninitialized | Loading => Response 503 loading_body
    end.

End Invariants.

(** ** Measures and settings used by the further properties *)

(** The number of steps a thread at this point can still take at most. *)
Definition wpc_rank (pc : wpc) : nat :=
  match pc with
  | WAcquire => 8
  | WDetect => 7
  | WLoad _ => 6
  | WValidate => 5
  | WSet1 => 4
  | WSet2 => 3
  | WSet3 => 2
  | WRelease => 1
  | WExc1 _ => 3
  | WExc2 => 2
  | WExc3 => 1
  | WDone => 0
  end.

(** The steps all workers of a process can still take at most. *)
Definition potential {Model Pipeline : Type} (s : sys Model Pipeline) : nat :=
  sum_list (wpc_rank <$> workers s).

(** A process with one worker: past the validation, and at its end when
    [initialized] is set, the registry is one the validation accepts. *)
Definition validated_inv {Model Pipeline : Type} (s : sys Model Pipeline)
  : Prop :=
  ∃ pc, workers s = [pc] ∧
  match pc with
  | WSet1 | WSet2 | WSet3 | WRelease => validate (reg s) = None
  | WDone => initialized (glob s) = true → validate (reg s) = None
  | _ => True
  end.

(** The event-loop thread runs the requests one at a time, and the
    middleware takes [model_init_lock] with a blocking call: while a
    request waits for the lock the thread is blocked and runs nothing
    else.  A server is the process together with the path of the request
    the event loop is blocked on, if any. *)
Record server (Model Pipeline : Type) := Server {
  proc : sys Model Pipeline;
  blocked_on : option string
}.
Arguments Server {Model Pipeline} _ _.
Arguments proc {Model Pipeline} _.
Arguments blocked_on {Model Pipeline} _.

(** A request for [path] arrives.  A blocked event loop does not run it;
    a free one runs it, and becomes blocked when the request has to wait
    for the lock.  The second component is the answer given now, if
    any. *)
Definition loop_request {Model Pipeline : Type}
    (path : string) (sv : server Model Pipeline)
  : server Model Pipeline * option served :=
  match blocked_on sv with
  | Some _ => (sv, None)
  | None =>
      match handle_request path (proc sv) with
      | Some answer => (sv, Some answer)
      | None => (Server (proc sv) (Some path), None)
      end
  end.

(** The blocked request gets the lock as soon as it is free, and is then
    run to its answer. *)
Definition loop_resume {Model Pipeline : Type} (sv : server Model Pipeline)
  : server Model Pipeline * option served :=
  match blocked_on sv with
  | Some path =>
      match handle_request path (proc sv) with
      | Some answer => (Server (proc sv) None, Some answer)
      | None => (sv, None)
      end
  | None => (sv, None)
  end.

(** The number of events of a schedule that move a worker. *)
Fixpoint effective_steps {Model Pipeline : Type}
    (environ : gmap string string) (cwd : string) (fs : gset string)
    (initialize_models :
       bool → registry Model Pipeline → registry Model Pipeline * load_end)
    (es : list event) (s : sys Model Pipeline) : nat :=
  match es with
  | [] => 0
  | e :: es' =>
      match e with
      | EvWorker i =>
          match worker_step environ cwd fs initialize_models i s with
          | Some _ => 1
          | None => 0
          end
      | EvRequest _ => 0
      end + effective_steps environ cwd fs initialize_models es'
              (do_event environ cwd fs initialize_models e s)
  end.

(** [reload_mode] of the [__main__] block:
    [os.getenv("RELOAD", "False").lower() in ("true", "1", "t")]. *)
Definition reload_mode (environ : gmap string string) : bool :=
  bool_decide (Py.lower (default "False" (environ !! "RELOAD"))
               ∈ ["true"; "1"; "t"]).

(** ** Facts about the Python primitives *)

Section PyFacts.
Import Py.

Lemma str_app_nil (b : string) : "" +:+ b = b.
Proof. reflexivity. Qed.

Lemma str_app_cons (c : ascii) (a b : string) :
  String c a +:+ b = String c (a +:+ b).
Proof. reflexivity. Qed.

Lemma str_length_app (a b : string) :
  String.length (a +:+ b) = (String.length a + String.length b)%nat.
Proof.
  induction a as [|c a IH]; [reflexivity|].
  rewrite str_app_cons. simpl. now rewrite IH.
Qed.

Lemma app_assoc_str (a b c : string) : (a +:+ b) +:+ c = a +:+ b +:+ c.
Proof.
  induction a as [|x a IH]; [reflexivity|].
  rewrite !str_app_cons. now rewrite IH.
Qed.

Lemma prefix_spec (p s : string) :
  String.prefix p s = true ↔ ∃ rest, s = p +:+ rest.
Proof.
  revert s; induction p as [|a p IH]; intros s.
  - destruct s; simpl; split; eauto.
  - destruct s as [|b s]; simpl.
    + split; [discriminate | intros [rest H]; discriminate H].
    + destruct (ascii_dec a b) as [->|Hne].
      * rewrite IH. split; intros [rest H]; exists rest;
          rewrite str_app_cons in *; congruence.
      * split; [discriminate |].
        intros [rest H]. rewrite str_app_cons in H. congruence.
Qed.

(** [contains] decides the substring relation. *)
Lemma contains_spec (needle hay : string) :
  contains needle hay = true ↔ has_substring needle hay.
Proof.
  unfold has_substring.
  induction hay as [|c hay IH].
  - cbn [contains]. rewrite orb_false_r, prefix_spec. split.
    + intros [rest H]. exists "", rest. exact H.
    + intros [[|x before] [after H]]; [eauto | discriminate H].
  - cbn [contains]. rewrite orb_true_iff, prefix_spec, IH. split.
    + intros [[rest H] | (before & after & H)].
      * exists "", rest. exact H.
      * exists (String c before), after. rewrite str_app_cons. now rewrite H.
    + intros ([|x before] & after & H).
      * left. exists after. exact H.
      * right. exists before, after. rewrite str_app_cons in H. congruence.
Qed.

Lemma length_slice_to (n : nat) (s : string) :
  (n <= String.length s)%nat → String.length (slice_to n s) = n.
Proof.
  revert s; induction n as [|n IH]; intros [|c s] H; simpl in *;
    try reflexivity; try lia.
  rewrite IH; [reflexivity | lia].
Qed.

(** A slice is an initial part of the string it is taken from. *)
Lemma slice_to_prefix (n : nat) (s : string) :
  ∃ rest, s = slice_to n s +:+ rest.
Proof.
  revert s; induction n as [|n IH]; intros [|c s]; simpl; eauto.
  destruct (IH s) as [rest H]. exists rest.
  rewrite str_app_cons. now rewrite <- H.
Qed.

Lemma lower_empty (s : string) : lower s = "" ↔ s = "".
Proof. destruct s; simpl; split; congruence. Qed.

Lemma lower_char_letters (c : ascii) :
  ((lower_char c = "t" ↔ c = "t" ∨ c = "T") ∧
   (lower_char c = "r" ↔ c = "r" ∨ c = "R") ∧
   (lower_char c = "u" ↔ c = "u" ∨ c = "U") ∧
   (lower_char c = "e" ↔ c = "e" ∨ c = "E"))%char.
Proof.
  destruct c as [[] [] [] [] [] [] [] []]; vm_compute;
    repeat split;
    first [ discriminate
          | (intros _; left; reflexivity)
          | (intros _; right; reflexivity)
          | (intros [H | H]; first [discriminate H | reflexivity]) ].
Qed.

(** [v.lower() == 'true'] is equality up to case. *)
Lemma lower_true (v : string) :
  lower v = "true" ↔ equals_true_ignoring_case v.
Proof.
  unfold equals_true_ignoring_case. split.
  - destruct v as [|c1 [|c2 [|c3 [|c4 [|c5 v]]]]]; simpl; try discriminate.
    intros H. injection H as H1 H2 H3 H4.
    exists c1, c2, c3, c4. split; [reflexivity|].
    destruct (lower_char_letters c1) as (T & _).
    destruct (lower_char_letters c2) as (_ & R & _).
    destruct (lower_char_letters c3) as (_ & _ & U & _).
    destruct (lower_char_letters c4) as (_ & _ & _ & E).
    rewrite <- T, <- R, <- U, <- E. auto.
  - intros (c1 & c2 & c3 & c4 & -> & H1 & H2 & H3 & H4). simpl.
    destruct (lower_char_letters c1) as (T & _).
    destruct (lower_char_letters c2) as (_ & R & _).
    destruct (lower_char_letters c3) as (_ & _ & U & _).
    destruct (lower_char_letters c4) as (_ & _ & _ & E).
    apply T in H1. apply R in H2. apply U in H3. apply E in H4.
    now rewrite H1, H2, H3, H4.
Qed.

Lemma truthy_Some (e : string) : truthy (Some e) = true ↔ e ≠ "".
Proof.
  simpl. rewrite negb_true_iff. apply String.eqb_neq.
Qed.

Lemma has_substring_nonempty (needle hay : string) :
  needle ≠ "" → has_substring needle hay → hay ≠ "".
Proof.
  intros Hn (before & after & ->) H.
  destruct before; [|discriminate H].
  destruct needle; [congruence | discriminate H].
Qed.

End PyFacts.

(** ** The environment test *)

Section DetectFacts.
Import Py.

Lemma ends_with_sep_app (a b : string) :
  b ≠ "" → ends_with_sep (a +:+ b) = ends_with_sep b.
Proof.
  intros Hb. induction a as [|c a IH]; [reflexivity|].
  rewrite str_app_cons. simpl. rewrite IH.
  destruct (a +:+ b) eqn:E; [|reflexivity].
  destruct a; [rewrite str_app_nil in E; congruence | discriminate E].
Qed.

(** The probed path lies under the working directory. *)
Lemma model_path_under_cwd (cwd : string) :
  path_join (path_join cwd "models") "Kokoro-82M" =
  (if String.eqb cwd "" || ends_with_sep cwd then cwd else cwd +:+ "/")
    +:+ "models/Kokoro-82M".
Proof.
  unfold path_join at 2. cbn [String.prefix].
  assert (J : ∀ p, path_join (p +:+ "models") "Kokoro-82M"
                   = p +:+ "models/Kokoro-82M").
  { intros p. unfold path_join. cbn [String.prefix].
    rewrite ends_with_sep_app by discriminate.
    replace (String.eqb (p +:+ "models") "") with false.
    - cbn. now rewrite app_assoc_str.
    - symmetry. apply String.eqb_neq. destruct p; discriminate. }
  destruct (String.eqb cwd "" || ends_with_sep cwd).
  - apply J.
  - rewrite <- app_assoc_str. apply J.
Qed.

End DetectFacts.

(** C7: [force_online] is true exactly when the container indicator
    [CONTAINER_ENV] equals "true" up to case or the service name
    [K_SERVICE] is set to a non-empty value, and the model directory
    [models/Kokoro-82M] under the working directory is absent; in every
    other combination it is false. *)
Theorem detect_force_online_iff
    (environ : gmap string string) (cwd : string) (fs : gset string) :
  (detect_force_online environ cwd fs = true ↔
     ((∃ v, environ !! "CONTAINER_ENV" = Some v ∧ equals_true_ignoring_case v) ∨
      (∃ v, environ !! "K_SERVICE" = Some v ∧ v ≠ "")) ∧
     Py.path_join (Py.path_join cwd "models") "Kokoro-82M" ∉ fs) ∧
  (detect_force_online environ cwd fs = false ↔
     ¬ (((∃ v, environ !! "CONTAINER_ENV" = Some v ∧ equals_true_ignoring_case v) ∨
         (∃ v, environ !! "K_SERVICE" = Some v ∧ v ≠ "")) ∧
        Py.path_join (Py.path_join cwd "models") "Kokoro-82M" ∉ fs)).
Proof.
  assert (C : String.eqb (Py.lower (Py.environ_get environ "CONTAINER_ENV")) "true" = true
              ↔ ∃ v, environ !! "CONTAINER_ENV" = Some v ∧ equals_true_ignoring_case v).
  { rewrite String.eqb_eq, lower_true. unfold Py.environ_get.
    destruct (environ !! "CONTAINER_ENV") as [v|]; simpl.
    - split; [eauto | intros (w & [= <-] & H); exact H].
    - split; [|intros (w & [=] & _)].
      intros (c1 & c2 & c3 & c4 & [=] & _). }
  assert (K : negb (String.eqb (Py.lower (Py.environ_get environ "K_SERVICE")) "") = true
              ↔ ∃ v, environ !! "K_SERVICE" = Some v ∧ v ≠ "").
  { rewrite negb_true_iff, String.eqb_neq, lower_empty. unfold Py.environ_get.
    destruct (environ !! "K_SERVICE") as [v|]; simpl.
    - split; [eauto | intros (w & [= <-] & H); exact H].
    - split; [congruence | intros (w & [=] & _)]. }
  assert (T : detect_force_online environ cwd fs = true ↔
     ((∃ v, environ !! "CONTAINER_ENV" = Some v ∧ equals_true_ignoring_case v) ∨
      (∃ v, environ !! "K_SERVICE" = Some v ∧ v ≠ "")) ∧
     Py.path_join (Py.path_join cwd "models") "Kokoro-82M" ∉ fs).
  { unfold detect_force_online, Py.path_exists.
    rewrite <- C, <- K, <- orb_true_iff.
    destruct (_ || _).
    - rewrite negb_true_iff, bool_decide_eq_false. tauto.
    - split; [discriminate | intros [[=] _]]. }
  split; [exact T|].
  rewrite <- T. destruct (detect_force_online environ cwd fs); split; congruence.
Qed.

(** Scenarios A and B of the specification, and two more: no indicator
    set; the container indicator set and the directory absent; the same
    with the directory present; only the service name set. *)
Example detect_scenarios :
  detect_force_online ∅ "/app" ∅ = false ∧
  detect_force_online Demo.container_environ "/app" ∅ = true ∧
  detect_force_online Demo.container_environ "/app"
    {["/app/models/Kokoro-82M"]} = false ∧
  detect_force_online {["K_SERVICE" := "kokoro"]} "/app" ∅ = true.
Proof. repeat split; vm_compute; reflexivity. Qed.

(** ** The middleware *)

Ltac by_decide := apply (bool_decide_unpack _); vm_compute; exact I.

Lemma marker_absent (e : string) :
  ¬ has_substring "weights_only" e → Py.contains "weights_only" e = false.
Proof.
  intros H. destruct (Py.contains "weights_only" e) eqn:E; [|reflexivity].
  exfalso. apply H. now apply contains_spec.
Qed.

Lemma gate_failed_branch {Model Pipeline : Type}
    (path : string) (g : globals) (r : registry Model Pipeline) (e : string) :
  path ∉ exempt_paths → initialized g = false →
  initialization_error g = Some e → e ≠ "" →
  check_initialization path g r
  = Reject 503 ("Service unavailable: " +:+ format_error e).
Proof.
  intros Hp Hi He Hne. unfold check_initialization.
  rewrite bool_decide_eq_false_2 by exact Hp.
  rewrite Hi, He. cbn [negb default].
  now rewrite (proj2 (truthy_Some e) Hne).
Qed.

(** C3, as amended: for a stored error of more than 200 characters
    without the marker "weights_only", the middleware raises 503 with the
    detail "Service unavailable: " followed by a text of exactly 200
    characters, the first 197 of the error and then "..."; the detail
    itself has 221 characters. *)
Theorem gate_truncation_law {Model Pipeline : Type}
    (path : string) (g : globals) (r : registry Model Pipeline) (e : string) :
  path ∉ exempt_paths → initialized g = false →
  initialization_error g = Some e →
  (200 < String.length e)%nat → ¬ has_substring "weights_only" e →
  ∃ m, check_initialization path g r
       = Reject 503 ("Service unavailable: " +:+ m) ∧
       m = Py.slice_to 197 e +:+ "..." ∧
       String.length (Py.slice_to 197 e) = 197 ∧
       (∃ rest, e = Py.slice_to 197 e +:+ rest) ∧
       String.length m = 200 ∧ ends_in "..." m ∧
       String.length ("Service unavailable: " +:+ m) = 221.
Proof.
  intros Hp Hi He Hlen Hno.
  assert (L197 : String.length (Py.slice_to 197 e) = 197)
    by (apply length_slice_to; lia).
  exists (Py.slice_to 197 e +:+ "...").
  split; [|split; [reflexivity|split; [exact L197|split; [apply slice_to_prefix|]]]].
  - rewrite (gate_failed_branch path g r e Hp Hi He).
    + unfold format_error. rewrite (marker_absent e Hno).
      now rewrite (proj2 (Nat.ltb_lt _ _) Hlen).
    + intros ->. simpl in Hlen. lia.
  - split; [|split].
    + rewrite str_length_app, L197. reflexivity.
    + now exists (Py.slice_to 197 e).
    + rewrite !str_length_app, L197. reflexivity.
Qed.

Lemma gate_truncation_law_witness :
  ∃ m, check_initialization "/tts/speak"
         (Globals false false (Some Demo.long_message)) Demo.empty_registry
       = Reject 503 ("Service unavailable: " +:+ m) ∧
       m = Py.slice_to 197 Demo.long_message +:+ "..." ∧
       String.length (Py.slice_to 197 Demo.long_message) = 197 ∧
       (∃ rest, Demo.long_message = Py.slice_to 197 Demo.long_message +:+ rest) ∧
       String.length m = 200 ∧ ends_in "..." m ∧
       String.length ("Service unavailable: " +:+ m) = 221.
Proof.
  apply (gate_truncation_law "/tts/speak"
           (Globals false false (Some Demo.long_message))
           Demo.empty_registry Demo.long_message).
  - by_decide.
  - reflexivity.
  - reflexivity.
  - vm_compute. lia.
  - rewrite <- contains_spec. vm_compute. discriminate.
Defined.

(** C3, as stated, fails: for a stored error of 201 characters without
    the marker, the detail the middleware reports has 221 characters, the
    21 of "Service unavailable: " included, not 200. *)
Lemma gate_detail_not_200 :
  (200 < String.length Demo.long_message)%nat ∧
  ¬ has_substring "weights_only" Demo.long_message ∧
  ∃ d, check_initialization "/tts/speak"
         (Globals false false (Some Demo.long_message)) Demo.empty_registry
       = Reject 503 d ∧
       String.length d = 221 ∧ String.length d ≠ 200.
Proof.
  split; [vm_compute; lia|].
  split; [rewrite <- contains_spec; vm_compute; discriminate|].
  eexists. split; [vm_compute; reflexivity|].
  split; [vm_compute; reflexivity | vm_compute; lia].
Qed.

(** C6: for a stored error that contains "weights_only", the middleware
    raises 503 with the fixed guidance text in the place of the raw
    message, whatever else the message holds; delivering the request
    leaves the stored error as it was. *)
Theorem gate_compatibility_substitution {Model Pipeline : Type}
    (environ : gmap string string) (cwd : string) (fs : gset string)
    (initialize_models :
       bool → registry Model Pipeline → registry Model Pipeline * load_end)
    (path : string) (s : sys Model Pipeline) (e : string) :
  path ∉ exempt_paths → initialized (glob s) = false →
  initialization_error (glob s) = Some e →
  has_substring "weights_only" e →
  check_initialization path (glob s) (reg s)
  = Reject 503 ("Service unavailable: " +:+ compatibility_guidance) ∧
  format_error e = compatibility_guidance ∧
  initialization_error
    (glob (do_event environ cwd fs initialize_models (EvRequest path) s))
  = Some e.
Proof.
  intros Hp Hi He Hm.
  assert (F : format_error e = compatibility_guidance).
  { unfold format_error. rewrite (proj2 (contains_spec _ _) Hm). reflexivity. }
  split; [|split; [exact F | exact He]].
  rewrite (gate_failed_branch path _ _ e Hp Hi He), F; [reflexivity|].
  apply (has_substring_nonempty "weights_only"); [discriminate | exact Hm].
Qed.

Lemma gate_compatibility_substitution_witness :
  check_initialization "/tts/speak"
    (Globals false false (Some Demo.long_marked_message)) Demo.empty_registry
  = Reject 503 ("Service unavailable: " +:+ compatibility_guidance) ∧
  format_error Demo.long_marked_message = compatibility_guidance ∧
  initialization_error
    (glob (do_event ∅ "/app" ∅ Demo.loader_ok (EvRequest "/tts/speak")
             (Sys (Globals false false (Some Demo.long_marked_message))
                  Demo.empty_registry None [WDone])))
  = Some Demo.long_marked_message.
Proof.
  apply (gate_compatibility_substitution ∅ "/app" ∅ Demo.loader_ok "/tts/speak"
           (Sys (Globals false false (Some Demo.long_marked_message))
                Demo.empty_registry None [WDone])
           Demo.long_marked_message).
  - by_decide.
  - reflexivity.
  - reflexivity.
  - rewrite <- contains_spec. vm_compute. reflexivity.
Defined.

(** C5, as amended: "/" is not in the exempt list, so a GET request for
    it takes [model_init_lock] like every gated request.  While a worker
    is inside its [with] block the request waits for the lock.  With the
    lock free it passes the middleware exactly when [initialized] is set
    and the models and voices are non-empty, and is then answered by
    [root] with 200 and the static message; in every other state with the
    lock free the middleware raises 503.  The paths of the exempt list
    pass in every state without taking the lock. *)
Theorem root_is_gated {Model Pipeline : Type} (s : sys Model Pipeline) :
  ("/" ∉ exempt_paths) ∧
  (check_initialization "/" (glob s) (reg s) = Allow ↔
     initialized (glob s) = true ∧
     size (models (reg s)) ≠ 0 ∧ length (voices (reg s)) ≠ 0) ∧
  ((∃ d, check_initialization "/" (glob s) (reg s) = Reject 503 d) ↔
     ¬ (initialized (glob s) = true ∧
        size (models (reg s)) ≠ 0 ∧ length (voices (reg s)) ≠ 0)) ∧
  (handle_request "/" s = Some (Responded root) ↔
     model_init_lock s = None ∧ initialized (glob s) = true ∧
     size (models (reg s)) ≠ 0 ∧ length (voices (reg s)) ≠ 0) ∧
  status_code root = 200 ∧
  (∀ path, path ∈ exempt_paths →
     check_initialization path (glob s) (reg s) = Allow ∧
     gate_blocked path s = false) ∧
  (handle_request "/" s = None ↔ model_init_lock s ≠ None) ∧
  ((∃ d, handle_request "/" s = Some (Raised 503 d)) ↔
     model_init_lock s = None ∧
     ¬ (initialized (glob s) = true ∧
        size (models (reg s)) ≠ 0 ∧ length (voices (reg s)) ≠ 0)).
Proof.
  assert (Hroot : "/" ∉ exempt_paths) by by_decide.
  assert (A : check_initialization "/" (glob s) (reg s) = Allow ↔
     initialized (glob s) = true ∧
     size (models (reg s)) ≠ 0 ∧ length (voices (reg s)) ≠ 0).
  { unfold check_initialization.
    rewrite bool_decide_eq_false_2 by exact Hroot.
    destruct (initialized (glob s)); cbn [negb].
    - destruct (Nat.eqb_spec (size (models (reg s))) 0) as [E1|E1];
        destruct (Nat.eqb_spec (length (voices (reg s))) 0) as [E2|E2];
        cbn [orb]; split; try discriminate; try tauto.
    - destruct (Py.truthy _); split; try discriminate; intros [[=] _]. }
  assert (R : ∃ d, check_initialization "/" (glob s) (reg s) ≠ Allow →
                   check_initialization "/" (glob s) (reg s) = Reject 503 d).
  { unfold check_initialization.
    rewrite bool_decide_eq_false_2 by exact Hroot.
    destruct (negb _); [destruct (Py.truthy _)|destruct (_ || _)]; eauto.
    exists "". congruence. }
  assert (B : (∃ d, check_initialization "/" (glob s) (reg s) = Reject 503 d)
              ↔ check_initialization "/" (glob s) (reg s) ≠ Allow).
  { split.
    - intros [d H]. rewrite H. discriminate.
    - intros H. destruct R as [d R]. exists d. apply R, H. }
  split; [exact Hroot|]. split; [exact A|].
  split; [|split; [|split; [|split; [|split]]]].
  - rewrite <- A. exact B.
  - unfold handle_request, gate_blocked.
    rewrite bool_decide_eq_false_2 by exact Hroot. cbn [negb andb].
    rewrite <- A.
    destruct (model_init_lock s) as [owner|].
    + split; [discriminate | intros [[=] _]].
    + destruct (check_initialization "/" (glob s) (reg s)).
      * split; [tauto | reflexivity].
      * split; [discriminate | intros [_ [=]]].
  - reflexivity.
  - intros path Hp. unfold check_initialization, gate_blocked.
    now rewrite bool_decide_eq_true_2 by exact Hp.
  - unfold handle_request, gate_blocked.
    rewrite bool_decide_eq_false_2 by exact Hroot. cbn [negb andb].
    destruct (model_init_lock s) as [owner|].
    + split; [discriminate | reflexivity].
    + destruct (check_initialization "/" (glob s) (reg s));
        split; try discriminate; intros H; now contradiction H.
  - rewrite <- A, <- B. unfold handle_request, gate_blocked.
    rewrite bool_decide_eq_false_2 by exact Hroot. cbn [negb andb].
    destruct (model_init_lock s) as [owner|].
    + split; [intros [d H]; discriminate H | intros [[=] _]].
    + destruct (check_initialization "/" (glob s) (reg s)) as [|st d0].
      * split; [intros [d H]; discriminate H|].
        intros [_ [d H]]. discriminate H.
      * split.
        -- intros [d [= -> ->]]. split; [reflexivity | eauto].
        -- intros [_ [d [= -> ->]]]. eauto.
Qed.

(** C5, as stated, fails: once the single worker has been spawned and
    before it takes the lock (phase Loading), and also before it is
    spawned, a GET request for "/" is refused with 503 "Service is still
    initializing"; while the worker is inside the model load the request
    waits for the lock and gets no answer. *)
Lemma root_refused_while_loading :
  phase Demo.started = Loading ∧
  handle_request "/" Demo.started
  = Some (Raised 503 "Service is still initializing") ∧
  phase (initial_sys Demo.empty_registry) = Uninitialized ∧
  handle_request "/" (initial_sys Demo.empty_registry)
  = Some (Raised 503 "Service is still initializing") ∧
  phase Demo.in_load = Loading ∧
  handle_request "/" Demo.in_load = None.
Proof. repeat split; vm_compute; reflexivity. Qed.

(** Scenarios D and E of the specification: a gated path while the
    worker is loading, and with [initialized] set but no voices. *)
Example gate_scenarios :
  check_initialization "/tts/speak" initial_globals Demo.empty_registry
  = Reject 503 "Service is still initializing" ∧
  check_initialization "/tts/speak" (Globals true true None)
    Demo.no_voices_registry
  = Reject 503 "Model initialization incomplete - service not ready" ∧
  check_initialization "/tts/speak" (Globals true true None)
    Demo.full_registry
  = Allow.
Proof. repeat split; vm_compute; reflexivity. Qed.

(** ** The probes *)

(** Neither probe formats the error: a stored error that is not the
    empty string is returned unchanged in the [error] field of both, also
    when it contains "weights_only" or has more than 200 characters. *)
Theorem probes_report_error_verbatim {Model Pipeline : Type}
    (g : globals) (r : registry Model Pipeline) (e : string) :
  initialization_error g = Some e → e ≠ "" →
  health_check g r
  = Response 200 [("status", JStr "error"); ("error", JStr e)] ∧
  readiness_check g
  = Response 503 [("status", JStr "error"); ("error", JStr e)].
Proof.
  intros He Hne. unfold health_check, readiness_check.
  rewrite He. rewrite (proj2 (truthy_Some e) Hne). split; reflexivity.
Qed.

Lemma probes_report_error_verbatim_witness :
  (200 < String.length Demo.long_marked_message)%nat ∧
  Py.contains "weights_only" Demo.long_marked_message = true ∧
  health_check (Globals false false (Some Demo.long_marked_message))
    Demo.empty_registry
  = Response 200 [("status", JStr "error");
                  ("error", JStr Demo.long_marked_message)] ∧
  readiness_check (Globals false false (Some Demo.long_marked_message))
  = Response 503 [("status", JStr "error");
                  ("error", JStr Demo.long_marked_message)].
Proof.
  split; [vm_compute; lia|]. split; [vm_compute; reflexivity|].
  apply (probes_report_error_verbatim
           (Globals false false (Some Demo.long_marked_message))
           Demo.empty_registry Demo.long_marked_message).
  - reflexivity.
  - vm_compute. discriminate.
Defined.

(** ** One worker: the lifecycle *)

Section SingleWorker.
Context {Model Pipeline : Type}.
Variable environ : gmap string string.
Variable cwd : string.
Variable fs : gset string.
Variable initialize_models :
  bool → registry Model Pipeline → registry Model Pipeline * load_end.

Implicit Types (s : sys Model Pipeline) (e : event) (es : list event).

Local Abbreviation do_event := (do_event environ cwd fs initialize_models).
Local Abbreviation trace := (trace environ cwd fs initialize_models).
Local Abbreviation run := (run environ cwd fs initialize_models).

Lemma single_inv_startup (r0 : registry Model Pipeline) :
  single_inv (startup_event (initial_sys r0)).
Proof. exists WAcquire. split; [reflexivity | split; reflexivity]. Qed.

Ltac close_single pc' :=
  split;
  [ exists pc'; split; [reflexivity|]; cbn; eauto
  | reflexivity ].

(** A step keeps the invariant and moves the phase forward or not at
    all. *)
Lemma single_step s e :
  single_inv s →
  single_inv (do_event e s) ∧
  phase_next (phase s) (phase (do_event e s)) = true.
Proof.
  intros Hinv.
  assert (Hstay : phase_next (phase s) (phase s) = true)
    by (destruct (phase s); reflexivity).
  destruct e as [i | path]; [|split; [exact Hinv | exact Hstay]].
  destruct Hinv as (pc & Hws & Hpc).
  destruct s as [g r l ws]. cbn in Hws, Hpc. subst ws.
  destruct i as [|i].
  2:{ split; [exists pc; split; [reflexivity | exact Hpc] | exact Hstay]. }
  unfold do_event, worker_step. cbn [workers lookup list_lookup].
  destruct pc; cbn in Hpc; destruct Hpc as [Hg Hl]; subst.
  - close_single WDetect.
  - close_single (WLoad (detect_force_online environ cwd fs)).
  - cbn [thread_step glob reg model_init_lock].
    destruct (initialize_models force_online r) as [r' [|e|]].
    + close_single WValidate.
    + close_single (WExc1 e).
    + close_single WDone.
  - cbn [thread_step glob reg model_init_lock].
    destruct (validate r) as [e|].
    + close_single (WExc1 e).
    + close_single WSet1.
  - close_single WSet2.
  - close_single WSet3.
  - close_single WRelease.
  - close_single WDone.
  - close_single WExc2.
  - destruct Hg as [e ->]. close_single WExc3.
  - destruct Hg as [e ->]. close_single WDone.
  - split; [exists WDone; split; [reflexivity | cbn; eauto] | exact Hstay].
Qed.

Lemma single_inv_run es s : single_inv s → single_inv (run es s).
Proof.
  revert s; induction es as [|e es IH]; intros s H; [exact H|].
  apply IH, single_step, H.
Qed.

Lemma trace_head es s : ∃ rest, trace es s = s :: rest.
Proof. destruct es; simpl; eauto. Qed.

Lemma chain_cons (p q : Phase) (rest : list Phase) :
  chain (p :: q :: rest) = (phase_next p q && chain (q :: rest)).
Proof. reflexivity. Qed.

Lemma trace_chain es s :
  single_inv s → chain (map phase (trace es s)) = true.
Proof.
  revert s; induction es as [|e es IH]; intros s H; [reflexivity|].
  destruct (single_step s e H) as [H' Hn].
  specialize (IH _ H').
  cbn [trace map]. destruct (trace_head es (do_event e s)) as [rest E].
  rewrite E in *. cbn [map] in *. rewrite chain_cons, Hn, IH. reflexivity.
Qed.

End SingleWorker.

(** ** Sequences of observed phases *)

Section Chains.

Lemma distinct_run_cons (p q : Phase) (rest : list Phase) :
  distinct_run (p :: q :: rest) =
  if bool_decide (p = q) then distinct_run (q :: rest)
  else p :: distinct_run (q :: rest).
Proof. reflexivity. Qed.

Lemma terminal_writes_cons (p q : Phase) (rest : list Phase) :
  terminal_writes (p :: q :: rest) =
  ((if bool_decide (p ≠ q) && (bool_decide (q = Ready) || bool_decide (q = Failed))
    then 1 else 0) + terminal_writes (q :: rest))%nat.
Proof. reflexivity. Qed.

Lemma chain_from_terminal (t : Phase) (ps : list Phase) :
  t = Ready ∨ t = Failed → chain (t :: ps) = true →
  distinct_run (t :: ps) = [t] ∧ terminal_writes (t :: ps) = 0.
Proof.
  intros Ht. induction ps as [|q ps IH]; [split; reflexivity|].
  rewrite chain_cons, andb_true_iff. intros [Hn Hc].
  assert (q = t) as -> by (destruct Ht as [-> | ->]; destruct q; vm_compute in Hn; congruence).
  destruct (IH Hc) as [D W].
  rewrite distinct_run_cons, terminal_writes_cons, D, W.
  destruct Ht as [-> | ->]; split; reflexivity.
Qed.

Lemma chain_from_loading (ps : list Phase) :
  chain (Loading :: ps) = true →
  (distinct_run (Loading :: ps) = [Loading] ∧
   terminal_writes (Loading :: ps) = 0) ∨
  (∃ t, (t = Ready ∨ t = Failed) ∧
        distinct_run (Loading :: ps) = [Loading; t] ∧
        terminal_writes (Loading :: ps) = 1).
Proof.
  induction ps as [|q ps IH]; [left; split; reflexivity|].
  rewrite chain_cons, andb_true_iff. intros [Hn Hc].
  rewrite distinct_run_cons, terminal_writes_cons.
  destruct q; vm_compute in Hn; try discriminate.
  - destruct (IH Hc) as [[D W] | (t & Ht & D & W)].
    + left. rewrite D, W. split; reflexivity.
    + right. exists t. rewrite D, W.
      split; [exact Ht | split; reflexivity].
  - right. exists Ready.
    destruct (chain_from_terminal Ready ps (or_introl eq_refl) Hc) as [D W].
    rewrite D, W. repeat split; auto.
  - right. exists Failed.
    destruct (chain_from_terminal Failed ps (or_intror eq_refl) Hc) as [D W].
    rewrite D, W. repeat split; auto.
Qed.

Lemma chain_from_uninitialized (ps : list Phase) :
  chain (Uninitialized :: ps) = true →
  (∃ t, (t = Ready ∨ t = Failed) ∧
        distinct_run (Uninitialized :: ps) `prefix_of` [Uninitialized; Loading; t]) ∧
  (terminal_writes (Uninitialized :: ps) <= 1)%nat.
Proof.
  induction ps as [|q ps IH].
  - intros _. split; [|cbn; lia].
    exists Ready. split; [auto|]. exists [Loading; Ready]. reflexivity.
  - rewrite chain_cons, andb_true_iff. intros [Hn Hc].
    rewrite distinct_run_cons, terminal_writes_cons.
    destruct q; vm_compute in Hn; try discriminate.
    + destruct (IH Hc) as [P W]. split; [exact P | exact W].
    + destruct (chain_from_loading ps Hc) as [[D W] | (t & Ht & D & W)];
        rewrite D, W; (split; [|vm_compute; lia]).
      * exists Ready. split; [auto|]. exists [Ready]. reflexivity.
      * exists t. split; [exact Ht|]. exists []. reflexivity.
Qed.

End Chains.

(** C9, as amended: in every execution in which the start-up hook fires
    once (the module imported, the hook called, then any interleaving of
    worker steps and requests) each step keeps the phase or moves it one
    stage forward, the observed phases with repetitions dropped are an
    initial part of Uninitialized, Loading, then one of Ready and Failed,
    at most one step writes a terminal phase, and a request changes
    nothing. *)
Theorem phase_monotonic {Model Pipeline : Type}
    (environ : gmap string string) (cwd : string) (fs : gset string)
    (initialize_models :
       bool → registry Model Pipeline → registry Model Pipeline * load_end)
    (r0 : registry Model Pipeline) (es : list event) :
  let observed :=
    map phase (initial_sys r0 ::
               trace environ cwd fs initialize_models es
                 (startup_event (initial_sys r0))) in
  chain observed = true ∧
  (∃ t, (t = Ready ∨ t = Failed) ∧
        distinct_run observed `prefix_of` [Uninitialized; Loading; t]) ∧
  (terminal_writes observed <= 1)%nat ∧
  (∀ path s, do_event environ cwd fs initialize_models (EvRequest path) s = s).
Proof.
  intros observed.
  assert (C : chain observed = true).
  { subst observed.
    pose proof (trace_chain environ cwd fs initialize_models es _
                  (single_inv_startup r0)) as H.
    destruct (trace_head environ cwd fs initialize_models es
                (startup_event (initial_sys r0))) as [rest E].
    rewrite E in *. cbn [map] in *. rewrite chain_cons, H. reflexivity. }
  split; [exact C|].
  destruct (chain_from_uninitialized _ C) as [P W].
  split; [exact P|]. split; [exact W|]. reflexivity.
Qed.

(** C9, as stated, fails: nothing keeps the start-up hook from being
    called twice, and in the execution in which it is, with a loader
    that raises the first time and returns the second, the observed
    phases are Uninitialized, Loading, Failed, Ready: the phase leaves a
    terminal value and a terminal phase is written twice. *)
Lemma phase_regresses_after_second_startup :
  let observed := map phase Demo.two_startup_states in
  distinct_run observed = [Uninitialized; Loading; Failed; Ready] ∧
  terminal_writes observed = 2 ∧
  chain observed = false ∧
  ∀ t, ¬ distinct_run observed `prefix_of` [Uninitialized; Loading; t].
Proof.
  cbv zeta.
  assert (D : distinct_run (map phase Demo.two_startup_states)
              = [Uninitialized; Loading; Failed; Ready])
    by (vm_compute; reflexivity).
  split; [exact D|]. split; [vm_compute; reflexivity|].
  split; [vm_compute; reflexivity|].
  intros t [k H]. rewrite D in H. discriminate H.
Qed.

(** ** Any number of workers *)

Section Workers.
Context {Model Pipeline : Type}.
Variable environ : gmap string string.
Variable cwd : string.
Variable fs : gset string.
Variable initialize_models :
  bool → registry Model Pipeline → registry Model Pipeline * load_end.

Implicit Types (s : sys Model Pipeline) (g : globals)
               (r : registry Model Pipeline).

Local Abbreviation thread_step := (thread_step environ cwd fs initialize_models).
Local Abbreviation thread_run := (thread_run environ cwd fs initialize_models).
Local Abbreviation worker_step := (worker_step environ cwd fs initialize_models).
Local Abbreviation run_worker := (run_worker environ cwd fs initialize_models).
Local Abbreviation run := (run environ cwd fs initialize_models).
Local Abbreviation do_event := (do_event environ cwd fs initialize_models).
Local Abbreviation init_models_thread :=
  (init_models_thread environ cwd fs initialize_models).

Lemma thread_run_stuck n i pc g r lock :
  thread_step i pc g r lock = None → thread_run n i pc g r lock = (pc, g, r, lock).
Proof. intros H. destruct n; simpl; [reflexivity | now rewrite H]. Qed.

Lemma run_cons e es s : run (e :: es) s = run es (do_event e s).
Proof. reflexivity. Qed.

(** Scheduling one worker alone is running its thread. *)
Lemma run_worker_thread_run n i pc s :
  workers s !! i = Some pc →
  run_worker n i s =
  let '(pc', g', r', lock') :=
    thread_run n i pc (glob s) (reg s) (model_init_lock s) in
  Sys g' r' lock' (<[i := pc']> (workers s)).
Proof.
  revert pc s; induction n as [|n IH]; intros pc s Hpc.
  - cbn. rewrite list_insert_id by exact Hpc. now destruct s.
  - unfold run_worker. cbn [replicate]. rewrite run_cons.
    fold (run_worker n i (do_event (EvWorker i) s)).
    simpl. unfold worker_step.
    rewrite Hpc.
    destruct (thread_step i pc (glob s) (reg s) (model_init_lock s))
      as [[[[pc' g'] r'] lock']|] eqn:E; cbn [from_option id].
    + rewrite (IH pc'); cbn [workers glob reg model_init_lock].
      * destruct (thread_run n i pc' g' r' lock') as [[[pc'' g''] r''] lock''].
        now rewrite list_insert_insert_eq.
      * apply list_lookup_insert_eq. eapply lookup_lt_Some, Hpc.
    + rewrite (IH pc s Hpc). now rewrite (thread_run_stuck n i pc _ _ _ E).
Qed.

(** Eight steps take a thread that finds the lock free through the whole
    of [init_models_thread]. *)
Lemma thread_run_alone i g r :
  thread_run 8 i WAcquire g r None =
  (WDone, (init_models_thread g r).1, (init_models_thread g r).2, None).
Proof.
  unfold init_models_thread. simpl.
  destruct (initialize_models (detect_force_online environ cwd fs) r)
    as [r' [|e|]]; [|reflexivity|reflexivity].
  simpl. destruct (validate r') as [e|]; reflexivity.
Qed.

Lemma run_worker_alone i s :
  workers s !! i = Some WAcquire → model_init_lock s = None →
  run_worker 8 i s =
  Sys (init_models_thread (glob s) (reg s)).1
      (init_models_thread (glob s) (reg s)).2
      None (<[i := WDone]> (workers s)).
Proof.
  intros Hpc Hl. rewrite (run_worker_thread_run 8 i WAcquire s Hpc), Hl.
  now rewrite thread_run_alone.
Qed.

End Workers.

(** ** The lock discipline *)

Section LockDiscipline.
Context {Model Pipeline : Type}.
Variable environ : gmap string string.
Variable cwd : string.
Variable fs : gset string.
Variable initialize_models :
  bool → registry Model Pipeline → registry Model Pipeline * load_end.

Implicit Types (s : sys Model Pipeline) (g : globals)
               (r : registry Model Pipeline).

Lemma lock_inv_initial r0 : lock_inv (initial_sys r0).
Proof.
  split.
  - intros i pc H. cbn in H. discriminate H.
  - intros i H. discriminate H.
Qed.

Lemma lock_inv_startup s : lock_inv s → lock_inv (startup_event s).
Proof.
  intros [H1 H2]. split; cbn [startup_event workers model_init_lock].
  - intros i pc Hi Hpc. apply lookup_app_Some in Hi as [Hi | [_ Hi]].
    + exact (H1 i pc Hi Hpc).
    + destruct (i - length (workers s))%nat; cbn in Hi; [|discriminate Hi].
      injection Hi as <-. discriminate Hpc.
  - intros i Hi. destruct (H2 i Hi) as (pc & Hpc & Hl).
    exists pc. split; [|exact Hl]. now apply lookup_app_l_Some.
Qed.

(** Moving worker [i] from [pc] to [pc'] keeps the discipline when the
    lock goes with it: taken or kept on entering a locked point,
    released or left alone on reaching a point outside. *)
Lemma lock_inv_update s i pc pc' g' r' lock' :
  lock_inv s → workers s !! i = Some pc →
  (locked_pc pc' = true →
   lock' = Some i ∧ (model_init_lock s = None ∨ model_init_lock s = Some i)) →
  (locked_pc pc' = false →
   (lock' = None ∧ (model_init_lock s = None ∨ model_init_lock s = Some i)) ∨
   (lock' = model_init_lock s ∧ locked_pc pc = false)) →
  lock_inv (Sys g' r' lock' (<[i := pc']> (workers s))).
Proof.
  intros [H1 H2] Hpc HA HB.
  assert (Hlt : (i < length (workers s))%nat) by (eapply lookup_lt_Some, Hpc).
  split; cbn [workers model_init_lock].
  - intros j pcj Hj Hlj. destruct (decide (j = i)) as [->|Hne].
    + rewrite list_lookup_insert_eq in Hj by exact Hlt. injection Hj as <-.
      now destruct (HA Hlj).
    + rewrite list_lookup_insert_ne in Hj by congruence.
      pose proof (H1 j pcj Hj Hlj) as Hown.
      destruct (locked_pc pc') eqn:E.
      * destruct (HA eq_refl) as [_ [Hs | Hs]]; congruence.
      * destruct (HB eq_refl) as [[_ [Hs | Hs]] | [-> _]]; congruence.
  - intros k Hk. destruct (locked_pc pc') eqn:E.
    + destruct (HA eq_refl) as [-> _]. injection Hk as <-.
      exists pc'. split; [now apply list_lookup_insert_eq | exact E].
    + destruct (HB eq_refl) as [[-> _] | [-> Hu]]; [discriminate Hk|].
      destruct (H2 k Hk) as (pck & Hpk & Hlk).
      exists pck. split; [|exact Hlk].
      rewrite list_lookup_insert_ne; [exact Hpk|].
      intros ->. congruence.
Qed.

Lemma lock_inv_worker_step s i s' :
  lock_inv s → worker_step environ cwd fs initialize_models i s = Some s' →
  lock_inv s'.
Proof.
  intros Hinv Hstep. unfold worker_step in Hstep.
  destruct (workers s !! i) as [pc|] eqn:Hpc; [|discriminate Hstep].
  assert (Hown : locked_pc pc = true → model_init_lock s = Some i)
    by (intros Hl; exact (proj1 Hinv i pc Hpc Hl)).
  destruct pc; cbn [thread_step] in Hstep;
    try specialize (Hown eq_refl);
    repeat match type of Hstep with
      | context [initialize_models ?b ?r] =>
          destruct (initialize_models b r) as [? [|?|]]
      | context [validate ?r] => destruct (validate r) as [?|]
      | context [match model_init_lock s with _ => _ end] =>
          destruct (model_init_lock s) eqn:?
      end;
    try discriminate Hstep;
    injection Hstep as <-;
    (eapply lock_inv_update; [exact Hinv | exact Hpc | |]);
    cbn [locked_pc]; intros; try discriminate; auto.
Qed.

Lemma lock_inv_reachable r0 s :
  reachable environ cwd fs initialize_models r0 s → lock_inv s.
Proof.
  induction 1 as [|s _ IH|s i s' _ IH Hstep].
  - apply lock_inv_initial.
  - apply lock_inv_startup, IH.
  - eapply lock_inv_worker_step; [exact IH | exact Hstep].
Qed.

End LockDiscipline.

(** C2, as amended: in every reachable state a worker owns
    [model_init_lock] exactly while it is between entering and leaving its
    [with] block: the environment test, the model load, the validation and
    the three assignments of the success path all run with the lock held,
    and the assignments of the [except] handler run after it has been
    released.  A request for a path outside the exempt list waits exactly
    while some worker is inside that block, the load included; a request
    for an exempt path never waits. *)
Theorem lock_held_across_load {Model Pipeline : Type}
    (environ : gmap string string) (cwd : string) (fs : gset string)
    (initialize_models :
       bool → registry Model Pipeline → registry Model Pipeline * load_end)
    (r0 : registry Model Pipeline) (s : sys Model Pipeline) :
  reachable environ cwd fs initialize_models r0 s →
  (∀ i pc, workers s !! i = Some pc →
     (model_init_lock s = Some i ↔ locked_pc pc = true)) ∧
  (∀ i force_online, workers s !! i = Some (WLoad force_online) →
     model_init_lock s = Some i ∧
     ∀ path, path ∉ exempt_paths → handle_request path s = None) ∧
  (∀ i, workers s !! i = Some WDetect ∨ workers s !! i = Some WValidate ∨
        workers s !! i = Some WSet1 ∨ workers s !! i = Some WSet2 ∨
        workers s !! i = Some WSet3 →
     model_init_lock s = Some i) ∧
  (∀ i, (∃ e, workers s !! i = Some (WExc1 e)) ∨
        workers s !! i = Some WExc2 ∨ workers s !! i = Some WExc3 →
     model_init_lock s ≠ Some i) ∧
  (∀ path, handle_request path s = None ↔
     (path ∉ exempt_paths) ∧
     ∃ i pc, workers s !! i = Some pc ∧ locked_pc pc = true) ∧
  (∀ path, path ∈ exempt_paths → handle_request path s ≠ None).
Proof.
  intros Hreach.
  destruct (lock_inv_reachable _ _ _ _ _ _ Hreach) as [H1 H2].
  assert (Hiff : ∀ i pc, workers s !! i = Some pc →
     (model_init_lock s = Some i ↔ locked_pc pc = true)).
  { intros i pc Hpc. split; [|apply (H1 i pc Hpc)].
    intros Hl. destruct (H2 i Hl) as (pc' & Hpc' & Hlk). congruence. }
  assert (Hblock : ∀ path, handle_request path s = None ↔
     (path ∉ exempt_paths) ∧
     ∃ i pc, workers s !! i = Some pc ∧ locked_pc pc = true).
  { intros path. unfold handle_request, gate_blocked.
    destruct (decide (path ∈ exempt_paths)) as [Hin|Hout].
    - rewrite bool_decide_eq_true_2 by exact Hin. cbn [negb andb].
      destruct (check_initialization _ _ _); split; try discriminate; tauto.
    - rewrite bool_decide_eq_false_2 by exact Hout. cbn [negb andb].
      destruct (model_init_lock s) as [i|] eqn:Hl.
      + split; [intros _|reflexivity]. split; [exact Hout|].
        destruct (H2 i eq_refl) as (pc & Hpc & Hlk). eauto.
      + destruct (check_initialization _ _ _); (split; [discriminate|]);
          intros (_ & i & pc & Hpc & Hlk); specialize (H1 i pc Hpc Hlk);
          discriminate H1. }
  split; [exact Hiff|]. split; [|split; [|split; [|split; [exact Hblock|]]]].
  - intros i force_online Hpc.
    split; [now apply (Hiff i _ Hpc)|].
    intros path Hout. apply Hblock. split; [exact Hout|].
    exists i, (WLoad force_online). split; [exact Hpc | reflexivity].
  - intros i [H | [H | [H | [H | H]]]]; now apply (Hiff i _ H).
  - intros i Hcase Hl.
    destruct Hcase as [[e H] | [H | H]];
      apply (Hiff i _ H) in Hl; discriminate Hl.
  - intros path Hin Hnone. apply Hblock in Hnone as [Hout _]. tauto.
Qed.

Lemma in_load_reachable :
  reachable ∅ "/app" ∅ Demo.loader_ok Demo.empty_registry Demo.in_load.
Proof.
  apply (reach_worker _ _ _ _ _ Demo.before_load 0); [|reflexivity].
  apply (reach_worker _ _ _ _ _ Demo.started 0); [|reflexivity].
  apply reach_startup, reach_init.
Qed.

Lemma lock_held_across_load_witness :
  model_init_lock Demo.in_load = Some 0 ∧
  handle_request "/tts/speak" Demo.in_load = None ∧
  handle_request "/ready" Demo.in_load ≠ None.
Proof.
  destruct (lock_held_across_load ∅ "/app" ∅ Demo.loader_ok
              Demo.empty_registry Demo.in_load in_load_reachable)
    as (_ & Hload & _ & _ & _ & Hexempt).
  destruct (Hload 0 false eq_refl) as [Hl Hwait].
  split; [exact Hl|]. split.
  - apply Hwait. by_decide.
  - apply Hexempt. by_decide.
Defined.

(** C2, as stated, fails: the execution start-up, acquire, environment
    test reaches a state in which the worker is inside the model load and
    owns the lock, and a request for a gated path has to wait. *)
Lemma worker_loads_with_lock_held :
  reachable ∅ "/app" ∅ Demo.loader_ok Demo.empty_registry Demo.in_load ∧
  workers Demo.in_load !! 0 = Some (WLoad false) ∧
  model_init_lock Demo.in_load = Some 0 ∧
  ("/tts/speak" ∉ exempt_paths) ∧
  handle_request "/tts/speak" Demo.in_load = None.
Proof.
  split; [exact in_load_reachable|].
  split; [reflexivity|]. split; [reflexivity|].
  split; [by_decide | vm_compute; reflexivity].
Qed.

(** ** The outcome of the worker *)

Lemma dict_bool_nonempty {V : Type} (d : gmap string V) :
  d ≠ ∅ → dict_bool d = true.
Proof.
  intros H. unfold dict_bool. apply negb_true_iff, Nat.eqb_neq.
  now apply map_size_non_empty_iff.
Qed.

(** C4, as amended: when the loader returns without raising and leaves
    the voices empty while models and pipelines are non-empty, the worker
    ends with [initialized] false and the stored error
    "Critical components missing after initialization: models=True,
    pipelines=True, voices=False", the booleans rendered the way Python
    prints them. *)
Theorem empty_voices_fail_message {Model Pipeline : Type}
    (environ : gmap string string) (cwd : string) (fs : gset string)
    (initialize_models :
       bool → registry Model Pipeline → registry Model Pipeline * load_end)
    (r0 r' : registry Model Pipeline) :
  initialize_models (detect_force_online environ cwd fs) r0 = (r', Returns) →
  models r' ≠ ∅ → pipelines r' ≠ ∅ → voices r' = [] →
  let s := run_worker environ cwd fs initialize_models 8 0
             (startup_event (initial_sys r0)) in
  glob s = Globals false false
             (Some "Critical components missing after initialization: models=True, pipelines=True, voices=False") ∧
  init_models_thread environ cwd fs initialize_models initial_globals r0
  = (glob s, r') ∧
  phase s = Failed ∧ workers s = [WDone] ∧ model_init_lock s = None.
Proof.
  intros Hload Hm Hp Hv s.
  assert (B : init_models_thread environ cwd fs initialize_models
                initial_globals r0
              = (Globals false false
                   (Some "Critical components missing after initialization: models=True, pipelines=True, voices=False"), r')).
  { unfold init_models_thread. rewrite Hload.
    unfold validate, missing_components_message.
    rewrite (dict_bool_nonempty _ Hm), (dict_bool_nonempty _ Hp), Hv.
    reflexivity. }
  subst s. rewrite run_worker_alone by reflexivity.
  cbn [glob reg startup_event initial_sys]. rewrite B.
  repeat split.
Qed.

Lemma empty_voices_fail_message_witness :
  let s := run_worker ∅ "/app" ∅ Demo.loader_no_voices 8 0
             (startup_event (initial_sys Demo.empty_registry)) in
  glob s = Globals false false
             (Some "Critical components missing after initialization: models=True, pipelines=True, voices=False") ∧
  init_models_thread ∅ "/app" ∅ Demo.loader_no_voices initial_globals
    Demo.empty_registry
  = (glob s, Demo.no_voices_registry) ∧
  phase s = Failed ∧ workers s = [WDone] ∧ model_init_lock s = None.
Proof.
  apply (empty_voices_fail_message ∅ "/app" ∅ Demo.loader_no_voices
           Demo.empty_registry Demo.no_voices_registry).
  - reflexivity.
  - apply map_size_non_empty_iff. vm_compute. lia.
  - apply map_size_non_empty_iff. vm_compute. lia.
  - reflexivity.
Defined.

(** C4, as stated, fails: with a loader that fills models and pipelines
    and leaves the voices empty, the stored error reads True, True, False
    and is not the text with lower-case booleans. *)
Lemma empty_voices_message_is_capitalised :
  let s := run_worker ∅ "/app" ∅ Demo.loader_no_voices 8 0 Demo.started in
  Demo.loader_no_voices false Demo.empty_registry
  = (Demo.no_voices_registry, Returns) ∧
  phase s = Failed ∧
  initialization_error (glob s)
  = Some "Critical components missing after initialization: models=True, pipelines=True, voices=False" ∧
  initialization_error (glob s)
  ≠ Some "Critical components missing after initialization: models=true, pipelines=true, voices=false".
Proof.
  cbv zeta. split; [reflexivity|]. split; [vm_compute; reflexivity|].
  split; [vm_compute; reflexivity | vm_compute; discriminate].
Qed.

(** ** The start-up hook *)

Section StartUp.
Context {Model Pipeline : Type}.
Variable environ : gmap string string.
Variable cwd : string.
Variable fs : gset string.
Variable initialize_models :
  bool → registry Model Pipeline → registry Model Pipeline * load_end.

Implicit Types (s : sys Model Pipeline).

Local Abbreviation run := (run environ cwd fs initialize_models).
Local Abbreviation run_worker := (run_worker environ cwd fs initialize_models).
Local Abbreviation worker_body :=
  (uncurry (init_models_thread environ cwd fs initialize_models)).







End StartUp.



(** With the hook called twice, the second worker overwrites the outcome
    of the first: the phase goes from Failed to Ready. *)
Example second_worker_overwrites_outcome :
  let s1 := run_worker ∅ "/app" ∅ Demo.loader_flaky 8 0
              (startup_event Demo.started) in
  let s2 := run_worker ∅ "/app" ∅ Demo.loader_flaky 8 1 s1 in
  phase s1 = Failed ∧ workers s1 = [WDone; WAcquire] ∧
  phase s2 = Ready ∧ workers s2 = [WDone; WDone].
Proof. cbv zeta. repeat split; vm_compute; reflexivity. Qed.

(** ** The readiness probe along the lifecycle *)

Lemma ready_contract_initial {Model Pipeline : Type}
    (r0 : registry Model Pipeline) :
  ready_contract (initial_sys r0).
Proof. split; [split; discriminate | reflexivity]. Qed.

Lemma ready_contract_failed {Model Pipeline : Type}
    (r : registry Model Pipeline) (lock : option nat) (ws : list wpc)
    (e : string) :
  ready_contract (Sys (Globals false false (Some e)) r lock ws).
Proof.
  unfold ready_contract, phase, readiness_check. cbn.
  destruct (String.eqb e ""); cbn;
    (split; [split; discriminate | reflexivity]).
Qed.

Lemma ready_contract_single {Model Pipeline : Type} (s : sys Model Pipeline) :
  single_inv s → ready_contract s.
Proof.
  intros (pc & Hws & Hpc).
  destruct s as [g r l ws]. cbn in Hws, Hpc. subst ws.
  assert (C : ∀ g0, (g0 = initial_globals ∨ g0 = Globals true false None ∨
                     g0 = Globals true true None) →
                    ready_contract (Sys g0 r l [pc])).
  { intros g0 [-> | [-> | ->]];
      (split; [split; (discriminate || reflexivity) | reflexivity]). }
  destruct pc; cbn in Hpc; destruct Hpc as [Hg Hl].
  all: first [ apply C; tauto
             | destruct Hg as [e ->]; apply ready_contract_failed
             | destruct Hg as [-> | [[e ->] | ->]];
               [apply C; tauto | apply ready_contract_failed | apply C; tauto] ].
Qed.

(** The readiness contract along the lifecycle: before the start-up hook
    and in every state of an execution after it, [/ready] answers 200
    exactly when the phase is Ready, then with the body ready / "Models
    loaded and ready"; in phase Failed with a stored error that is not the
    empty string it answers 503 with status error and that error; in phase
    Uninitialized or Loading it answers 503 with loading / "Models are
    still loading".  In phase Failed with the empty string stored, the
    answer is the loading one. *)
Theorem readiness_by_phase {Model Pipeline : Type}
    (environ : gmap string string) (cwd : string) (fs : gset string)
    (initialize_models :
       bool → registry Model Pipeline → registry Model Pipeline * load_end)
    (r0 : registry Model Pipeline) (es : list event) :
  ready_contract (initial_sys r0) ∧
  ready_contract (run environ cwd fs initialize_models es
                    (startup_event (initial_sys r0))).
Proof.
  split; [apply ready_contract_initial|].
  apply ready_contract_single, single_inv_run, single_inv_startup.
Qed.

(** C8, at the failing input: when the loader raises an exception whose
    text is empty, the worker ends in phase Failed with the empty string
    stored, and [/ready] answers 503 with the loading body, where the
    claim has status error and the stored message. *)
Lemma ready_reports_loading_after_silent_failure :
  let s := run_worker ∅ "/app" ∅ (Demo.loader_raises "") 8 0 Demo.started in
  workers s = [WDone] ∧ phase s = Failed ∧
  initialization_error (glob s) = Some "" ∧
  readiness_check (glob s) = Response 503 loading_body ∧
  readiness_check (glob s) ≠ Response 503 (error_body "").
Proof.
  cbv zeta. repeat split; try (vm_compute; reflexivity).
  vm_compute. discriminate.
Qed.

(** C10, at the failing input: with the empty string stored as the
    error (the loader raised an exception without text), neither probe
    returns it in an [error] field: [/health] answers initializing and
    [/ready] answers loading. *)
Lemma probes_drop_empty_error :
  let s := run_worker ∅ "/app" ∅ (Demo.loader_raises "") 8 0 Demo.started in
  initialization_error (glob s) = Some "" ∧
  health_check (glob s) (reg s) = Response 200 [("status", JStr "initializing")] ∧
  health_check (glob s) (reg s) ≠ Response 200 (error_body "") ∧
  readiness_check (glob s) = Response 503 loading_body ∧
  readiness_check (glob s) ≠ Response 503 (error_body "").
Proof.
  cbv zeta. repeat split; try (vm_compute; reflexivity);
    vm_compute; discriminate.
Qed.

(** * Further properties of the module *)

(** ** The probes and the event loop *)

Lemma health_check_200 {Model Pipeline : Type}
    (g : globals) (r : registry Model Pipeline) :
  health_check g r = Response 200 (content (health_check g r)).
Proof.
  unfold health_check.
  destruct (Py.truthy _); [reflexivity|]. now destruct (negb _).
Qed.

Lemma exempt_request {Model Pipeline : Type}
    (path : string) (s : sys Model Pipeline) :
  path ∈ exempt_paths →
  handle_request path s = Some (route path (glob s) (reg s)).
Proof.
  intros Hp. unfold handle_request, gate_blocked, check_initialization.
  now rewrite bool_decide_eq_true_2 by exact Hp.
Qed.

(** X1: the probes never take the lock, but they share the event loop
    with the gated requests.  With the event loop free, a request for
    [/health] is answered at once with status 200 and one for [/ready] by
    [readiness_check], also while a worker holds the lock.  A request for
    a gated path that arrives while a worker holds the lock blocks the
    event loop; from then on no request is answered, [/health] and
    [/ready] included, until the lock is free and the blocked request has
    been run. *)
Theorem probes_served_unless_blocked {Model Pipeline : Type}
    (sv : server Model Pipeline) :
  (blocked_on sv = None →
     (∃ b, loop_request "/health" sv
           = (sv, Some (Responded (Response 200 b))) ∧
           health_check (glob (proc sv)) (reg (proc sv)) = Response 200 b) ∧
     loop_request "/ready" sv
     = (sv, Some (Responded (readiness_check (glob (proc sv)))))) ∧
  (∀ path, blocked_on sv = None → path ∉ exempt_paths →
     model_init_lock (proc sv) ≠ None →
     loop_request path sv = (Server (proc sv) (Some path), None)) ∧
  (∀ path, blocked_on sv ≠ None → loop_request path sv = (sv, None)) ∧
  (∀ path, blocked_on sv = Some path → path ∉ exempt_paths →
     model_init_lock (proc sv) ≠ None → loop_resume sv = (sv, None)) ∧
  (∀ path, blocked_on sv = Some path → model_init_lock (proc sv) = None →
     ∃ answer, loop_resume sv = (Server (proc sv) None, Some answer)).
Proof.
  split; [|split; [|split; [|split]]].
  - intros Hb. unfold loop_request. rewrite Hb.
    rewrite !exempt_request by by_decide. split; [|reflexivity].
    exists (content (health_check (glob (proc sv)) (reg (proc sv)))).
    split; [|apply health_check_200].
    change (route "/health" (glob (proc sv)) (reg (proc sv)))
      with (Responded (health_check (glob (proc sv)) (reg (proc sv)))).
    now rewrite <- health_check_200.
  - intros path Hb Hp Hl. unfold loop_request. rewrite Hb.
    unfold handle_request, gate_blocked.
    rewrite bool_decide_eq_false_2 by exact Hp.
    destruct (model_init_lock (proc sv)); [reflexivity | congruence].
  - intros path Hb. unfold loop_request.
    destruct (blocked_on sv); [reflexivity | congruence].
  - intros path Hb Hp Hl. unfold loop_resume. rewrite Hb.
    unfold handle_request, gate_blocked.
    rewrite bool_decide_eq_false_2 by exact Hp.
    destruct (model_init_lock (proc sv)); [reflexivity | congruence].
  - intros path Hb Hl. unfold loop_resume. rewrite Hb.
    unfold handle_request, gate_blocked. rewrite Hl, andb_false_r.
    destruct (check_initialization path _ _); eexists; reflexivity.
Qed.

Lemma probes_served_unless_blocked_witness :
  (∃ b, loop_request "/health" (Server Demo.in_load None)
        = (Server Demo.in_load None, Some (Responded (Response 200 b)))) ∧
  loop_request "/tts/speak" (Server Demo.in_load None)
  = (Server Demo.in_load (Some "/tts/speak"), None) ∧
  loop_request "/health" (Server Demo.in_load (Some "/tts/speak"))
  = (Server Demo.in_load (Some "/tts/speak"), None) ∧
  loop_resume (Server Demo.in_load (Some "/tts/speak"))
  = (Server Demo.in_load (Some "/tts/speak"), None).
Proof.
  destruct (probes_served_unless_blocked (Server Demo.in_load None))
    as (Hfree & Hblock & _).
  destruct (probes_served_unless_blocked
              (Server Demo.in_load (Some "/tts/speak")))
    as (_ & _ & Hstall & Hwait & _).
  destruct (Hfree eq_refl) as [(b & Hb & _) _].
  split; [exists b; exact Hb|].
  split; [apply Hblock; [reflexivity | by_decide | discriminate]|].
  split; [apply Hstall; discriminate|].
  apply (Hwait "/tts/speak"); [reflexivity | by_decide | discriminate].
Defined.

(** The scenario in full: the worker is inside the load; a gated request
    blocks the event loop; [/health] gets no answer; the worker ends and
    releases the lock; the blocked request is run; [/health] is answered
    again. *)
Example blocked_loop_scenario :
  let sv1 := (loop_request "/tts/speak" (Server Demo.in_load None)).1 in
  let sv2 := Server (run_worker ∅ "/app" ∅ Demo.loader_ok 6 0 (proc sv1))
               (blocked_on sv1) in
  blocked_on sv1 = Some "/tts/speak" ∧
  (loop_request "/health" sv1).2 = None ∧
  workers (proc sv2) = [WDone] ∧
  (loop_request "/health" sv2).2 = None ∧
  loop_resume sv2 = (Server (proc sv2) None, Some Routed) ∧
  (loop_request "/health" (loop_resume sv2).1).2
  = Some (Responded (Response 200 [("status", JStr "healthy");
                                   ("voices", JList ["af_heart"])])).
Proof. cbv zeta. repeat split; vm_compute; reflexivity. Qed.

(** ** The text the middleware reports *)

Lemma guidance_has_no_marker_and_fits :
  Py.contains "weights_only" compatibility_guidance = false ∧
  String.length compatibility_guidance = 175.
Proof. split; vm_compute; reflexivity. Qed.

(** X2: whatever error is stored, the text the middleware derives from
    it has at most 200 characters, so the detail of the 503 it raises has
    at most 221. *)
Theorem format_error_bounded (e : string) :
  (String.length (format_error e) <= 200)%nat ∧
  (String.length ("Service unavailable: " +:+ format_error e) <= 221)%nat.
Proof.
  assert (B : (String.length (format_error e) <= 200)%nat).
  { unfold format_error.
    destruct (Py.contains "weights_only" e).
    - destruct guidance_has_no_marker_and_fits as [_ L].
      rewrite L. cbn. lia.
    - destruct (Nat.ltb_spec 200 (String.length e)) as [H|H]; [|lia].
      rewrite str_length_app, length_slice_to by lia. cbn. lia. }
  split; [exact B|]. rewrite str_length_app. cbn. lia.
Qed.

(** A message of at most 200 characters without the marker is reported as
    it is. *)
Lemma format_error_short (e : string) :
  Py.contains "weights_only" e = false → (String.length e <= 200)%nat →
  format_error e = e.
Proof.
  intros Hc Hl. unfold format_error. rewrite Hc.
  now rewrite (proj2 (Nat.ltb_ge _ _) Hl).
Qed.

(** The validation message is short, non-empty and has no marker. *)
Lemma validation_message_plain {Model Pipeline : Type}
    (r : registry Model Pipeline) :
  missing_components_message r ≠ "" ∧
  Py.contains "weights_only" (missing_components_message r) = false ∧
  (String.length (missing_components_message r) <= 200)%nat.
Proof.
  unfold missing_components_message.
  destruct (dict_bool (models r)), (dict_bool (pipelines r)),
    (list_bool (voices r)); vm_compute; (split; [discriminate|]);
    (split; [reflexivity | lia]).
Qed.

(** ** What a worker run publishes *)

Section Outcome.
Context {Model Pipeline : Type}.
Variable environ : gmap string string.
Variable cwd : string.
Variable fs : gset string.
Variable initialize_models :
  bool → registry Model Pipeline → registry Model Pipeline * load_end.

Implicit Types (s : sys Model Pipeline) (g : globals)
               (r : registry Model Pipeline).

Local Abbreviation run_worker := (run_worker environ cwd fs initialize_models).
Local Abbreviation init_models_thread :=
  (init_models_thread environ cwd fs initialize_models).
Local Abbreviation force_online := (detect_force_online environ cwd fs).

Lemma dict_bool_true_iff {V : Type} (d : gmap string V) :
  dict_bool d = true ↔ d ≠ ∅.
Proof.
  unfold dict_bool. rewrite negb_true_iff, Nat.eqb_neq.
  apply map_size_non_empty_iff.
Qed.

Lemma list_bool_true_iff {A : Type} (l : list A) :
  list_bool l = true ↔ l ≠ [].
Proof. destruct l; cbn; split; congruence. Qed.

Lemma validate_None_iff r :
  validate r = None ↔ models r ≠ ∅ ∧ pipelines r ≠ ∅ ∧ voices r ≠ [].
Proof.
  rewrite <- !dict_bool_true_iff, <- list_bool_true_iff. unfold validate.
  destruct (dict_bool (models r)), (dict_bool (pipelines r)),
    (list_bool (voices r)); cbn; split; try discriminate; try tauto;
    intros (? & ? & ?); discriminate.
Qed.

(** The single worker, scheduled from start-up to its end. *)
Lemma single_worker_run r0 :
  run_worker 8 0 (startup_event (initial_sys r0)) =
  Sys (init_models_thread initial_globals r0).1
      (init_models_thread initial_globals r0).2 None [WDone].
Proof. now rewrite run_worker_alone. Qed.

(** The single worker when the loader raises an [Exception]. *)
Lemma run_after_raise r0 r' (e : string) :
  initialize_models force_online r0 = (r', RaisesException e) →
  run_worker 8 0 (startup_event (initial_sys r0))
  = Sys (Globals false false (Some e)) r' None [WDone].
Proof.
  intros H. rewrite single_worker_run. unfold init_models_thread.
  now rewrite H.
Qed.

(** The single worker when the loader raises outside [Exception]. *)
Lemma run_after_exit r0 r' :
  initialize_models force_online r0 = (r', RaisesOther) →
  run_worker 8 0 (startup_event (initial_sys r0))
  = Sys initial_globals r' None [WDone].
Proof.
  intros H. rewrite single_worker_run. unfold init_models_thread.
  now rewrite H.
Qed.

Lemma failed_state_detail (path : string) (e : string) r lock ws :
  path ∉ exempt_paths → e ≠ "" → lock = None →
  handle_request path (Sys (Globals false false (Some e)) r lock ws)
  = Some (Raised 503 ("Service unavailable: " +:+ format_error e)).
Proof.
  intros Hp He ->. unfold handle_request, gate_blocked. cbn [model_init_lock].
  rewrite andb_false_r. cbn [glob reg].
  now rewrite (gate_failed_branch path (Globals false false (Some e)) r e
                 Hp eq_refl eq_refl He).
Qed.

End Outcome.

(** X3: a run of [init_models_thread] ends with the globals
    (True, True, None) exactly when the loader returns without raising and
    leaves models, pipelines and voices all non-empty, or when the loader
    raises outside [Exception] and the globals were (True, True, None)
    before.  Unless the loader raises outside [Exception], what the run
    publishes does not depend on the globals it finds: all three are
    overwritten. *)
Theorem worker_success_iff {Model Pipeline : Type}
    (environ : gmap string string) (cwd : string) (fs : gset string)
    (initialize_models :
       bool → registry Model Pipeline → registry Model Pipeline * load_end)
    (g : globals) (r : registry Model Pipeline) :
  ((init_models_thread environ cwd fs initialize_models g r).1
   = Globals true true None ↔
   (∃ r', initialize_models (detect_force_online environ cwd fs) r
          = (r', Returns) ∧
          models r' ≠ ∅ ∧ pipelines r' ≠ ∅ ∧ voices r' ≠ []) ∨
   (∃ r', initialize_models (detect_force_online environ cwd fs) r
          = (r', RaisesOther) ∧
          g = Globals true true None)) ∧
  (∀ g',
     init_models_thread environ cwd fs initialize_models g' r
     = init_models_thread environ cwd fs initialize_models g r ∨
     ∃ r', initialize_models (detect_force_online environ cwd fs) r
           = (r', RaisesOther) ∧
           init_models_thread environ cwd fs initialize_models g' r = (g', r') ∧
           init_models_thread environ cwd fs initialize_models g r = (g, r')).
Proof.
  unfold init_models_thread. split.
  - destruct (initialize_models (detect_force_online environ cwd fs) r)
      as [r' [|e|]] eqn:E.
    + destruct (validate r') as [e|] eqn:V; cbn.
      * split; [discriminate|].
        intros [(r'' & [= <-] & H) | (r'' & [=] & _)].
        apply validate_None_iff in H. congruence.
      * split; [|reflexivity]. intros _. left. exists r'.
        split; [reflexivity|]. now apply validate_None_iff.
    + cbn. split; [discriminate|].
      intros [(r'' & [=] & _) | (r'' & [=] & _)].
    + cbn. split.
      * intros ->. right. exists r'. split; reflexivity.
      * intros [(r'' & [=] & _) | (r'' & _ & ->)]. reflexivity.
  - intros g'.
    destruct (initialize_models (detect_force_online environ cwd fs) r)
      as [r' [|e|]].
    + left. destruct (validate r'); reflexivity.
    + left. reflexivity.
    + right. exists r'. repeat split.
Qed.

(** X4: when the loader raises an exception of class [Exception], the
    worker ends with the text of the exception stored unchanged, whatever
    it is, with [MODELS_LOADED] and [initialized] false, the lock released
    and the registry as the loader left it. *)
Theorem loader_exception_stored_verbatim {Model Pipeline : Type}
    (environ : gmap string string) (cwd : string) (fs : gset string)
    (initialize_models :
       bool → registry Model Pipeline → registry Model Pipeline * load_end)
    (r0 r' : registry Model Pipeline) (e : string) :
  initialize_models (detect_force_online environ cwd fs) r0
  = (r', RaisesException e) →
  run_worker environ cwd fs initialize_models 8 0
    (startup_event (initial_sys r0))
  = Sys (Globals false false (Some e)) r' None [WDone].
Proof. apply run_after_raise. Qed.

Lemma loader_exception_stored_verbatim_witness :
  run_worker ∅ "/app" ∅ (Demo.loader_raises Demo.long_marked_message) 8 0
    (startup_event (initial_sys Demo.empty_registry))
  = Sys (Globals false false (Some Demo.long_marked_message))
        Demo.empty_registry None [WDone].
Proof.
  apply (loader_exception_stored_verbatim ∅ "/app" ∅
           (Demo.loader_raises Demo.long_marked_message)
           Demo.empty_registry Demo.empty_registry Demo.long_marked_message).
  reflexivity.
Defined.

(** X5: when the loader raises an exception of class [Exception] whose
    text is not empty, has at most 200 characters and does not contain
    "weights_only", then after
    the worker has ended a request for a gated path is refused with 503
    and the detail "Service unavailable: " followed by that text, and both
    probes report the text in their [error] field. *)
Theorem loader_exception_reaches_client {Model Pipeline : Type}
    (environ : gmap string string) (cwd : string) (fs : gset string)
    (initialize_models :
       bool → registry Model Pipeline → registry Model Pipeline * load_end)
    (r0 r' : registry Model Pipeline) (e path : string) :
  initialize_models (detect_force_online environ cwd fs) r0
  = (r', RaisesException e) →
  e ≠ "" → Py.contains "weights_only" e = false →
  (String.length e <= 200)%nat → path ∉ exempt_paths →
  let s := run_worker environ cwd fs initialize_models 8 0
             (startup_event (initial_sys r0)) in
  handle_request path s = Some (Raised 503 ("Service unavailable: " +:+ e)) ∧
  health_check (glob s) (reg s) = Response 200 (error_body e) ∧
  readiness_check (glob s) = Response 503 (error_body e).
Proof.
  intros H He Hc Hl Hp s. subst s.
  rewrite (run_after_raise _ _ _ _ _ _ _ H).
  rewrite failed_state_detail by done.
  rewrite (format_error_short e Hc Hl). split; [reflexivity|].
  cbn [glob reg]. unfold health_check, readiness_check.
  cbn [initialization_error].
  rewrite (proj2 (truthy_Some e) He). split; reflexivity.
Qed.

Lemma loader_exception_reaches_client_witness :
  let s := run_worker ∅ "/app" ∅ (Demo.loader_raises "disk full") 8 0
             (startup_event (initial_sys Demo.empty_registry)) in
  handle_request "/tts/speak" s
  = Some (Raised 503 ("Service unavailable: " +:+ "disk full")) ∧
  health_check (glob s) (reg s) = Response 200 (error_body "disk full") ∧
  readiness_check (glob s) = Response 503 (error_body "disk full").
Proof.
  apply (loader_exception_reaches_client ∅ "/app" ∅
           (Demo.loader_raises "disk full")
           Demo.empty_registry Demo.empty_registry "disk full" "/tts/speak").
  - reflexivity.
  - vm_compute. discriminate.
  - vm_compute. reflexivity.
  - vm_compute. lia.
  - by_decide.
Defined.

(** X6: when the loader returns without raising but the validation
    refuses the registry, the message of the validation is stored and a
    request for a gated path is refused with 503 and the detail
    "Service unavailable: " followed by that message in full: it is never
    cut and never replaced by the guidance text. *)
Theorem validation_failure_reported_in_full {Model Pipeline : Type}
    (environ : gmap string string) (cwd : string) (fs : gset string)
    (initialize_models :
       bool → registry Model Pipeline → registry Model Pipeline * load_end)
    (r0 r' : registry Model Pipeline) (m path : string) :
  initialize_models (detect_force_online environ cwd fs) r0 = (r', Returns) →
  validate r' = Some m → path ∉ exempt_paths →
  let s := run_worker environ cwd fs initialize_models 8 0
             (startup_event (initial_sys r0)) in
  m = missing_components_message r' ∧
  glob s = Globals false false (Some m) ∧
  handle_request path s = Some (Raised 503 ("Service unavailable: " +:+ m)).
Proof.
  intros H V Hp s. subst s.
  assert (Hm : m = missing_components_message r').
  { unfold validate in V. destruct (_ || _); congruence. }
  destruct (validation_message_plain r') as (Hne & Hc & Hl).
  rewrite <- Hm in Hne, Hc, Hl.
  assert (E : run_worker environ cwd fs initialize_models 8 0
                (startup_event (initial_sys r0))
              = Sys (Globals false false (Some m)) r' None [WDone]).
  { rewrite single_worker_run. unfold init_models_thread. now rewrite H, V. }
  rewrite E. split; [exact Hm|]. split; [reflexivity|].
  rewrite failed_state_detail by done.
  now rewrite (format_error_short m Hc Hl).
Qed.

Lemma validation_failure_reported_in_full_witness :
  let s := run_worker ∅ "/app" ∅ Demo.loader_no_voices 8 0
             (startup_event (initial_sys Demo.empty_registry)) in
  "Critical components missing after initialization: models=True, pipelines=True, voices=False"
  = missing_components_message Demo.no_voices_registry ∧
  glob s = Globals false false
             (Some "Critical components missing after initialization: models=True, pipelines=True, voices=False") ∧
  handle_request "/tts/speak" s
  = Some (Raised 503 ("Service unavailable: " +:+
       "Critical components missing after initialization: models=True, pipelines=True, voices=False")).
Proof.
  apply (validation_failure_reported_in_full ∅ "/app" ∅ Demo.loader_no_voices
           Demo.empty_registry Demo.no_voices_registry).
  - reflexivity.
  - vm_compute. reflexivity.
  - by_decide.
Defined.

(** ** The lock, with any number of workers *)

Lemma two_in_load_reachable :
  reachable ∅ "/app" ∅ Demo.loader_ok Demo.empty_registry Demo.two_in_load.
Proof.
  apply (reach_worker _ _ _ _ _ Demo.two_before_load 0); [|reflexivity].
  apply (reach_worker _ _ _ _ _ (startup_event Demo.started) 0);
    [|reflexivity].
  apply reach_startup, reach_startup, reach_init.
Qed.

(** X7: mutual exclusion.  In every reachable state, with any number of
    workers, a worker inside its [with] block owns the lock, no other
    worker is inside its [with] block, and every worker that is about to
    enter has to wait. *)
Theorem mutual_exclusion {Model Pipeline : Type}
    (environ : gmap string string) (cwd : string) (fs : gset string)
    (initialize_models :
       bool → registry Model Pipeline → registry Model Pipeline * load_end)
    (r0 : registry Model Pipeline) (s : sys Model Pipeline)
    (i : nat) (pci : wpc) :
  reachable environ cwd fs initialize_models r0 s →
  workers s !! i = Some pci → locked_pc pci = true →
  model_init_lock s = Some i ∧
  (∀ j pcj, workers s !! j = Some pcj → j ≠ i → locked_pc pcj = false) ∧
  (∀ j, workers s !! j = Some WAcquire →
        worker_step environ cwd fs initialize_models j s = None).
Proof.
  intros Hreach Hi Hli.
  destruct (lock_inv_reachable _ _ _ _ _ _ Hreach) as [H1 _].
  pose proof (H1 i pci Hi Hli) as Hown.
  split; [exact Hown|]. split.
  - intros j pcj Hj Hne. destruct (locked_pc pcj) eqn:E; [|reflexivity].
    pose proof (H1 j pcj Hj E). congruence.
  - intros j Hj. unfold worker_step. rewrite Hj. cbn [thread_step].
    now rewrite Hown.
Qed.

Lemma mutual_exclusion_witness :
  workers Demo.two_in_load = [WLoad false; WAcquire] ∧
  model_init_lock Demo.two_in_load = Some 0 ∧
  (∀ j pcj, workers Demo.two_in_load !! j = Some pcj → j ≠ 0 →
            locked_pc pcj = false) ∧
  worker_step ∅ "/app" ∅ Demo.loader_ok 1 Demo.two_in_load = None.
Proof.
  destruct (mutual_exclusion ∅ "/app" ∅ Demo.loader_ok Demo.empty_registry
              Demo.two_in_load 0 (WLoad false) two_in_load_reachable
              eq_refl eq_refl) as (Hown & Hothers & Hwait).
  split; [reflexivity|]. split; [exact Hown|]. split; [exact Hothers|].
  apply Hwait. reflexivity.
Defined.

(** X8: the lock does not leak.  In every reachable state in which no
    worker is inside its [with] block, be it that each has ended with
    success, ended through the handler or not yet begun, the lock is free
    and no request waits. *)
Theorem lock_not_leaked {Model Pipeline : Type}
    (environ : gmap string string) (cwd : string) (fs : gset string)
    (initialize_models :
       bool → registry Model Pipeline → registry Model Pipeline * load_end)
    (r0 : registry Model Pipeline) (s : sys Model Pipeline) :
  reachable environ cwd fs initialize_models r0 s →
  (∀ i pc, workers s !! i = Some pc → locked_pc pc = false) →
  model_init_lock s = None ∧ ∀ path, handle_request path s ≠ None.
Proof.
  intros Hreach Hnone.
  destruct (lock_inv_reachable _ _ _ _ _ _ Hreach) as [_ H2].
  assert (L : model_init_lock s = None).
  { destruct (model_init_lock s) as [k|] eqn:E; [|reflexivity].
    destruct (H2 k eq_refl) as (pc & Hpc & Hl).
    rewrite (Hnone k pc Hpc) in Hl. discriminate Hl. }
  split; [exact L|]. intros path. unfold handle_request, gate_blocked.
  rewrite L, andb_false_r. now destruct (check_initialization _ _ _).
Qed.

Lemma failed_reachable :
  reachable ∅ "/app" ∅ (Demo.loader_raises "disk full") Demo.empty_registry
    (Sys (Globals false false (Some "disk full")) Demo.empty_registry None
       [WDone]).
Proof.
  apply (reach_worker _ _ _ _ _
           (Sys (Globals false false (Some "disk full")) Demo.empty_registry
              None [WExc3]) 0); [|reflexivity].
  apply (reach_worker _ _ _ _ _
           (Sys (Globals false false (Some "disk full")) Demo.empty_registry
              None [WExc2]) 0); [|reflexivity].
  apply (reach_worker _ _ _ _ _
           (Sys initial_globals Demo.empty_registry None [WExc1 "disk full"]) 0);
    [|reflexivity].
  apply (reach_worker _ _ _ _ _ Demo.in_load 0); [|reflexivity].
  apply (reach_worker _ _ _ _ _ Demo.before_load 0); [|reflexivity].
  apply (reach_worker _ _ _ _ _ Demo.started 0); [|reflexivity].
  apply reach_startup, reach_init.
Qed.

Lemma lock_not_leaked_witness :
  model_init_lock
    (Sys (Globals false false (Some "disk full")) Demo.empty_registry None
       [WDone]) = None ∧
  ∀ path,
    handle_request path
      (Sys (Globals false false (Some "disk full")) Demo.empty_registry None
         [WDone]) ≠ None.
Proof.
  apply (lock_not_leaked ∅ "/app" ∅ (Demo.loader_raises "disk full")
           Demo.empty_registry _ failed_reachable).
  intros [|i] pc H; cbn in H; [|discriminate H].
  injection H as <-. reflexivity.
Defined.

Lemma thread_step_enabled {Model Pipeline : Type}
    (environ : gmap string string) (cwd : string) (fs : gset string)
    (initialize_models :
       bool → registry Model Pipeline → registry Model Pipeline * load_end)
    (i : nat) (pc : wpc) (g : globals) (r : registry Model Pipeline)
    (lock : option nat) :
  pc ≠ WDone → (pc = WAcquire → lock = None) →
  is_Some (thread_step environ cwd fs initialize_models i pc g r lock).
Proof.
  intros Hd Ha. destruct pc; cbn [thread_step]; try (eexists; reflexivity).
  - rewrite (Ha eq_refl). eexists; reflexivity.
  - destruct (initialize_models force_online r) as [r' [|e|]];
      eexists; reflexivity.
  - destruct (validate r); eexists; reflexivity.
  - congruence.
Qed.

(** X9: no deadlock.  In every reachable state in which some worker has
    not ended, some worker can take a step. *)
Theorem no_deadlock {Model Pipeline : Type}
    (environ : gmap string string) (cwd : string) (fs : gset string)
    (initialize_models :
       bool → registry Model Pipeline → registry Model Pipeline * load_end)
    (r0 : registry Model Pipeline) (s : sys Model Pipeline)
    (i : nat) (pc : wpc) :
  reachable environ cwd fs initialize_models r0 s →
  workers s !! i = Some pc → pc ≠ WDone →
  ∃ k s', worker_step environ cwd fs initialize_models k s = Some s'.
Proof.
  intros Hreach Hpc Hd.
  destruct (lock_inv_reachable _ _ _ _ _ _ Hreach) as [H1 H2].
  assert (Go : ∀ k pck, workers s !! k = Some pck → pck ≠ WDone →
                 (pck = WAcquire → model_init_lock s = None) →
                 ∃ s', worker_step environ cwd fs initialize_models k s = Some s').
  { intros k pck Hk Hnd Hacq. unfold worker_step. rewrite Hk.
    destruct (thread_step_enabled environ cwd fs initialize_models k pck
                (glob s) (reg s) (model_init_lock s) Hnd Hacq)
      as [[[[pc' g'] r'] l'] ->].
    eexists; reflexivity. }
  destruct (model_init_lock s) as [k|] eqn:L.
  - destruct (H2 k eq_refl) as (pck & Hk & Hl). exists k.
    apply (Go k pck Hk); intros ->; discriminate Hl.
  - exists i. apply (Go i pc Hpc Hd). reflexivity.
Qed.

Lemma no_deadlock_witness :
  ∃ k s', worker_step ∅ "/app" ∅ Demo.loader_ok k Demo.in_load = Some s'.
Proof.
  apply (no_deadlock ∅ "/app" ∅ Demo.loader_ok Demo.empty_registry
           Demo.in_load 0 (WLoad false) in_load_reachable).
  - reflexivity.
  - discriminate.
Defined.

(** ** No retry: the steps of the workers are bounded *)

Section Bounded.
Context {Model Pipeline : Type}.
Variable environ : gmap string string.
Variable cwd : string.
Variable fs : gset string.
Variable initialize_models :
  bool → registry Model Pipeline → registry Model Pipeline * load_end.

Implicit Types (s : sys Model Pipeline).

Lemma thread_step_rank i pc g (r : registry Model Pipeline) lock pc' g' r' lock' :
  thread_step environ cwd fs initialize_models i pc g r lock
  = Some (pc', g', r', lock') →
  (wpc_rank pc' < wpc_rank pc)%nat.
Proof.
  destruct pc; cbn [thread_step]; intros H;
    repeat match type of H with
      | context [initialize_models ?b ?x] =>
          destruct (initialize_models b x) as [? [|?|]]
      | context [validate ?x] => destruct (validate x)
      | context [match lock with _ => _ end] => destruct lock
      end;
    try discriminate H; injection H as <- _ _ _; cbn; lia.
Qed.

Lemma sum_rank_insert (ws : list wpc) i pc pc' :
  ws !! i = Some pc → (wpc_rank pc' < wpc_rank pc)%nat →
  (sum_list (wpc_rank <$> <[i := pc']> ws) < sum_list (wpc_rank <$> ws))%nat.
Proof.
  revert i; induction ws as [|w ws IH]; intros [|i] H Hlt; cbn in *;
    try discriminate H.
  - injection H as ->. apply Nat.add_lt_mono_r, Hlt.
  - apply Nat.add_lt_mono_l, IH; assumption.
Qed.

Lemma worker_step_potential i s s' :
  worker_step environ cwd fs initialize_models i s = Some s' →
  (potential s' < potential s)%nat.
Proof.
  unfold worker_step. destruct (workers s !! i) as [pc|] eqn:Hpc; [|discriminate].
  destruct (thread_step _ _ _ _ _ _ _ _ _) as [[[[pc' g'] r'] l']|] eqn:E;
    [|discriminate].
  intros [= <-]. unfold potential. cbn [workers].
  eapply sum_rank_insert; [exact Hpc|]. eapply thread_step_rank, E.
Qed.

Lemma potential_bound s : (potential s <= 8 * length (workers s))%nat.
Proof.
  unfold potential. induction (workers s) as [|w ws IH]; cbn; [lia|].
  assert (wpc_rank w <= 8)%nat by (destruct w; cbn; lia). lia.
Qed.

Lemma effective_steps_potential es s :
  (effective_steps environ cwd fs initialize_models es s
   + potential (run environ cwd fs initialize_models es s) <= potential s)%nat.
Proof.
  revert s; induction es as [|e es IH]; intros s; [cbn; lia|].
  change (run environ cwd fs initialize_models (e :: es) s)
    with (run environ cwd fs initialize_models es
            (do_event environ cwd fs initialize_models e s)).
  cbn [effective_steps]. specialize (IH (do_event environ cwd fs initialize_models e s)).
  destruct e as [i|path]; cbn [do_event] in *; [|lia].
  destruct (worker_step environ cwd fs initialize_models i s) as [s'|] eqn:E;
    cbn [from_option id] in *; [|lia].
  pose proof (worker_step_potential i s s' E). lia.
Qed.

End Bounded.

(** X10: no retry.  In every schedule of worker steps and requests, from
    any state, the events that move a worker number at most eight for each
    worker thread there is: a worker never goes back to an earlier point
    and never starts over. *)
Theorem worker_steps_bounded {Model Pipeline : Type}
    (environ : gmap string string) (cwd : string) (fs : gset string)
    (initialize_models :
       bool → registry Model Pipeline → registry Model Pipeline * load_end)
    (es : list event) (s : sys Model Pipeline) :
  (effective_steps environ cwd fs initialize_models es s
   <= 8 * length (workers s))%nat ∧
  (effective_steps environ cwd fs initialize_models es s
   + potential (run environ cwd fs initialize_models es s) <= potential s)%nat.
Proof.
  pose proof (effective_steps_potential environ cwd fs initialize_models es s).
  pose proof (potential_bound s). split; lia.
Qed.

(** ** One worker: what the readers can rely on *)

Section Consistency.
Context {Model Pipeline : Type}.
Variable environ : gmap string string.
Variable cwd : string.
Variable fs : gset string.
Variable initialize_models :
  bool → registry Model Pipeline → registry Model Pipeline * load_end.

Implicit Types (s : sys Model Pipeline) (g : globals)
               (r : registry Model Pipeline).

Local Abbreviation do_event := (do_event environ cwd fs initialize_models).
Local Abbreviation run := (run environ cwd fs initialize_models).

Lemma validated_inv_startup r0 : validated_inv (startup_event (initial_sys r0)).
Proof. exists WAcquire. split; [reflexivity | exact I]. Qed.

Lemma validated_inv_step s e :
  single_inv s → validated_inv s → validated_inv (do_event e s).
Proof.
  intros Hsingle Hinv. destruct e as [i|path]; [|exact Hinv].
  destruct Hinv as (pc & Hws & Hpc).
  destruct Hsingle as (pc0 & Hws0 & Hpc0).
  assert (pc0 = pc) as -> by congruence. clear Hws0.
  destruct s as [g r l ws]. cbn in Hws, Hpc, Hpc0. subst ws.
  destruct i as [|i]; [|exists pc; split; [reflexivity | exact Hpc]].
  unfold do_event, worker_step. cbn [workers lookup list_lookup].
  destruct pc, l; cbn [thread_step glob reg model_init_lock].
  all: repeat match goal with
         | |- context [initialize_models ?b ?x] =>
             destruct (initialize_models b x) as [? [|?|]]
         | |- context [validate ?x] =>
             destruct (validate x) eqn:?
         end.
  all: eexists; (split; [reflexivity|]); cbn; try exact I; try assumption;
    try discriminate; try (intros _; assumption).
  all: destruct Hpc0 as [-> _]; discriminate.
Qed.

Lemma validated_inv_run es s :
  single_inv s → validated_inv s → validated_inv (run es s).
Proof.
  revert s; induction es as [|e es IH]; intros s Hs H; [exact H|].
  apply IH; [apply single_step, Hs | apply validated_inv_step; assumption].
Qed.

Lemma gate_admits_validated (path : string) g r :
  initialized g = true → validate r = None →
  check_initialization path g r = Allow.
Proof.
  intros Hi Hv. apply validate_None_iff in Hv as (Hm & _ & Hvo).
  unfold check_initialization. destruct (bool_decide _); [reflexivity|].
  rewrite Hi. cbn [negb].
  apply map_size_non_empty_iff, Nat.eqb_neq in Hm. rewrite Hm.
  destruct (voices r); [congruence | reflexivity].
Qed.

Lemma gate_refuses_uninitialized (path : string) g r :
  path ∉ exempt_paths → initialized g = false →
  check_initialization path g r ≠ Allow.
Proof.
  intros Hp Hi. unfold check_initialization.
  rewrite bool_decide_eq_false_2 by exact Hp. rewrite Hi. cbn [negb].
  destruct (Py.truthy _); discriminate.
Qed.

(** The values the globals can have at each point of the single worker. *)
Lemma single_inv_cases s :
  single_inv s →
  ∃ pc, workers s = [pc] ∧
    (glob s = initial_globals ∨
     (glob s = Globals true false None ∧ pc = WSet2) ∨
     (glob s = Globals true true None ∧
      (pc = WSet3 ∨ pc = WRelease ∨ pc = WDone)) ∨
     (∃ e, glob s = Globals false false (Some e))).
Proof.
  intros (pc & Hws & Hpc). exists pc. split; [exact Hws|].
  destruct pc; cbn in Hpc; destruct Hpc as [Hg _].
  - left. exact Hg.
  - left. exact Hg.
  - left. exact Hg.
  - left. exact Hg.
  - left. exact Hg.
  - right; left. split; [exact Hg | reflexivity].
  - right; right; left. split; [exact Hg | tauto].
  - right; right; left. split; [exact Hg | tauto].
  - left. exact Hg.
  - right; right; right. exact Hg.
  - right; right; right. exact Hg.
  - destruct Hg as [Hg | [Hg | Hg]].
    + right; right; left. split; [exact Hg | tauto].
    + right; right; right. exact Hg.
    + left. exact Hg.
Qed.

End Consistency.


(** X12: in every state of an execution after the single start-up call,
    and as long as only the loader changes the registry, [/ready] answers
    200 exactly when the middleware admits a request for a gated path:
    the validation the worker passed makes the emptiness test of the
    middleware pass as well. *)
Theorem ready_iff_admitted {Model Pipeline : Type}
    (environ : gmap string string) (cwd : string) (fs : gset string)
    (initialize_models :
       bool → registry Model Pipeline → registry Model Pipeline * load_end)
    (r0 : registry Model Pipeline) (es : list event) (path : string) :
  path ∉ exempt_paths →
  let s := run environ cwd fs initialize_models es
             (startup_event (initial_sys r0)) in
  status_code (readiness_check (glob s)) = 200 ↔
  check_initialization path (glob s) (reg s) = Allow.
Proof.
  intros Hp s. subst s.
  set (s := run environ cwd fs initialize_models es
              (startup_event (initial_sys r0))).
  destruct (ready_contract_single s
              (single_inv_run environ cwd fs initialize_models es _
                 (single_inv_startup r0))) as [Hready _].
  destruct (single_inv_cases s
              (single_inv_run environ cwd fs initialize_models es _
                 (single_inv_startup r0))) as (pc & Hws & Hcase).
  destruct (validated_inv_run environ cwd fs initialize_models es _
              (single_inv_startup r0) (validated_inv_startup r0))
    as (pc' & Hws' & Hv).
  fold s in Hws, Hcase, Hws', Hv.
  assert (pc' = pc) as -> by congruence.
  rewrite Hready. unfold phase. rewrite Hws.
  destruct Hcase as [Hg | [[Hg Hpc] | [[Hg Hpc] | [e Hg]]]].
  - pose proof (gate_refuses_uninitialized path (glob s) (reg s) Hp) as Hno.
    rewrite Hg in *. cbn. split; [discriminate | intros H; now apply Hno in H].
  - pose proof (gate_refuses_uninitialized path (glob s) (reg s) Hp) as Hno.
    rewrite Hg in *. cbn. split; [discriminate | intros H; now apply Hno in H].
  - assert (V : validate (reg s) = None).
    { destruct Hpc as [-> | [-> | ->]]; cbn in Hv; [exact Hv | exact Hv |].
      apply Hv. now rewrite Hg. }
    rewrite (gate_admits_validated path (glob s) (reg s)); [|now rewrite Hg|exact V].
    rewrite Hg. cbn. tauto.
  - pose proof (gate_refuses_uninitialized path (glob s) (reg s) Hp) as Hno.
    rewrite Hg in *. cbn. split; [discriminate | intros H; now apply Hno in H].
Qed.

Lemma ready_iff_admitted_witness :
  let s := run ∅ "/app" ∅ Demo.loader_ok (replicate 8 (EvWorker 0))
             (startup_event (initial_sys Demo.empty_registry)) in
  status_code (readiness_check (glob s)) = 200 ↔
  check_initialization "/tts/speak" (glob s) (reg s) = Allow.
Proof.
  apply (ready_iff_admitted ∅ "/app" ∅ Demo.loader_ok Demo.empty_registry
           (replicate 8 (EvWorker 0)) "/tts/speak").
  by_decide.
Defined.

(** ** The development settings of the [__main__] block *)

Lemma lower_char_one (c : ascii) : (Py.lower_char c = "1" ↔ c = "1")%char.
Proof.
  destruct c as [[] [] [] [] [] [] [] []]; vm_compute;
    split; first [discriminate | reflexivity | (intros _; reflexivity)].
Qed.

Lemma lower_one (v : string) : Py.lower v = "1" ↔ v = "1".
Proof.
  destruct v as [|c [|c' v]]; cbn [Py.lower]; split; try discriminate.
  - intros H. injection H as H. apply (proj1 (lower_char_one c)) in H.
    rewrite H. reflexivity.
  - intros H. injection H as ->. reflexivity.
Qed.

Lemma lower_t (v : string) : Py.lower v = "t" ↔ v = "t" ∨ v = "T".
Proof.
  destruct v as [|c [|c' v]]; cbn [Py.lower].
  - split; [discriminate | intros [H|H]; discriminate H].
  - destruct (lower_char_letters c) as (T & _). split.
    + intros H. injection H as H.
      destruct (proj1 T H) as [-> | ->]; auto.
    + intros H. f_equal. apply (proj2 T).
      destruct H as [H | H]; injection H as ->; auto.
  - split; [discriminate | intros [H|H]; discriminate H].
Qed.

(** X13: the development server reloads exactly when the variable
    [RELOAD] is set to "true" in any mix of cases, to "1", or to "t" or
    "T"; with the variable unset, or set to anything else, it does not. *)
Theorem reload_mode_iff (environ : gmap string string) :
  reload_mode environ = true ↔
  ∃ v, environ !! "RELOAD" = Some v ∧
       (equals_true_ignoring_case v ∨ v = "1" ∨ v = "t" ∨ v = "T").
Proof.
  unfold reload_mode. rewrite bool_decide_eq_true.
  rewrite !elem_of_cons, elem_of_nil.
  destruct (environ !! "RELOAD") as [v|]; cbn [default from_option id].
  - rewrite lower_true, lower_one, lower_t. split.
    + intros H. exists v. split; [reflexivity | tauto].
    + intros (w & [= <-] & H). tauto.
  - split.
    + intros [H | [H | [H | []]]]; vm_compute in H; discriminate H.
    + intros (w & [=] & _).
Qed.

(** A few settings of [RELOAD]. *)
Example reload_mode_samples :
  reload_mode ∅ = false ∧
  reload_mode {["RELOAD" := "TRUE"]} = true ∧
  reload_mode {["RELOAD" := "T"]} = true ∧
  reload_mode {["RELOAD" := "1"]} = true ∧
  reload_mode {["RELOAD" := "yes"]} = false ∧
  reload_mode {["RELOAD" := "true "]} = false.
Proof. repeat split; vm_compute; reflexivity. Qed.

(** ** A worker ended by an exception outside [Exception] *)

Lemma run_after_end {Model Pipeline : Type}
    (environ : gmap string string) (cwd : string) (fs : gset string)
    (initialize_models :
       bool → registry Model Pipeline → registry Model Pipeline * load_end)
    (g : globals) (r : registry Model Pipeline) (es : list event) :
  run environ cwd fs initialize_models es (Sys g r None [WDone])
  = Sys g r None [WDone].
Proof.
  induction es as [|e es IH]; [reflexivity|].
  change (run environ cwd fs initialize_models (e :: es) (Sys g r None [WDone]))
    with (run environ cwd fs initialize_models es
            (do_event environ cwd fs initialize_models e (Sys g r None [WDone]))).
  destruct e as [[|i]|path]; exact IH.
Qed.

(** X14: when the loader raises an exception outside [Exception]
    ([SystemExit], for one), the handler is passed by: the worker ends
    with the lock released and the globals untouched, and the service
    stays as if it were loading for good.  [/health] answers
    initializing, [/ready] answers 503 loading, every gated request is
    refused with 503 "Service is still initializing", and no later step
    changes that. *)
Theorem loader_exit_leaves_initializing {Model Pipeline : Type}
    (environ : gmap string string) (cwd : string) (fs : gset string)
    (initialize_models :
       bool → registry Model Pipeline → registry Model Pipeline * load_end)
    (r0 r' : registry Model Pipeline) :
  initialize_models (detect_force_online environ cwd fs) r0
  = (r', RaisesOther) →
  let s := run_worker environ cwd fs initialize_models 8 0
             (startup_event (initial_sys r0)) in
  s = Sys initial_globals r' None [WDone] ∧
  phase s = Loading ∧
  health_check (glob s) (reg s)
  = Response 200 [("status", JStr "initializing")] ∧
  readiness_check (glob s) = Response 503 loading_body ∧
  (∀ path, path ∉ exempt_paths →
     handle_request path s
     = Some (Raised 503 "Service is still initializing")) ∧
  (∀ es, run environ cwd fs initialize_models es s = s).
Proof.
  intros H s. subst s. rewrite (run_after_exit _ _ _ _ _ _ H).
  split; [reflexivity|]. split; [reflexivity|]. split; [reflexivity|].
  split; [reflexivity|]. split.
  - intros path Hp. unfold handle_request, gate_blocked, check_initialization.
    rewrite bool_decide_eq_false_2 by exact Hp. reflexivity.
  - intros es. apply run_after_end.
Qed.

Lemma loader_exit_leaves_initializing_witness :
  let s := run_worker ∅ "/app" ∅ Demo.loader_exits 8 0
             (startup_event (initial_sys Demo.empty_registry)) in
  s = Sys initial_globals Demo.empty_registry None [WDone] ∧
  phase s = Loading ∧
  health_check (glob s) (reg s)
  = Response 200 [("status", JStr "initializing")] ∧
  readiness_check (glob s) = Response 503 loading_body ∧
  (∀ path, path ∉ exempt_paths →
     handle_request path s
     = Some (Raised 503 "Service is still initializing")) ∧
  (∀ es, run ∅ "/app" ∅ Demo.loader_exits es s = s).
Proof.
  apply (loader_exit_leaves_initializing ∅ "/app" ∅ Demo.loader_exits
           Demo.empty_registry Demo.empty_registry).
  reflexivity.
Defined.
